(** * The two MongoDB playground scripts, as queries over BSON documents

    The repository holds two playground scripts.  The first reads the
    newest [btw_orders] document with a given order code through a
    projection that flattens the Lazada, Shopee and Line Shopping
    sub-documents; the second looks customer profiles up by the id of one
    of their orders and defines, without calling it, a delete-by-id helper.

    The scripts are query documents handed to the database, so they are
    embedded here as data (a filter, a projection, a sort, a limit) next to
    an evaluator for the constructs they use: inclusion of a field, a nested
    projection of computed fields, the field path expression, [$first],
    equality on a dotted path, and the default inclusion of [_id].  The
    evaluator follows the behaviour the database documents for these
    constructs since version 4.4, the first in which [find] takes
    expressions in its projection and has [$first] on arrays. *)

From Stdlib Require Import ZArith Ascii String List Bool.
From stdpp Require Import base option gmap strings.
Import ListNotations.
Local Open Scope string_scope.
Local Open Scope Z_scope.

(** ** BSON values *)

(** A stored value.  [VNum] is a number whose value is an integer, whatever
    its BSON type (Int32, Int64, or a Double holding an integer): the server
    compares numbers of different types by value.  [VOther] stands for any
    other scalar (a Double with a fraction, a Decimal128, a Date, an
    ObjectId, ...), named by its type and its text. *)
#[local] Unset Elimination Schemes.
Inductive value : Type :=
| VNull
| VUndefined
| VBool (b : bool)
| VNum (n : Z)
| VStr (s : string)
| VOther (type repr : string)
| VArr (items : list value)
| VDoc (fields : list (string * value)).
#[local] Set Elimination Schemes.

(** A document keeps its fields in order. *)
Definition document : Type := list (string * value).

(** Outcome of evaluating a query: a value, or the error the server raises. *)
Inductive error : Type :=
| FirstArgumentNotArray.

Inductive result (A : Type) : Type :=
| Ok (a : A)
| Error (e : error).
Arguments Ok {A} a.
Arguments Error {A} e.

Definition rbind {A B} (r : result A) (k : A -> result B) : result B :=
  match r with
  | Ok a => k a
  | Error e => Error e
  end.

Notation "'do' x <- r ; k" := (rbind r (fun x => k))
  (at level 10, x name, r at level 100, k at level 200).

(** Reading a field: the first one of that name, [None] when missing. *)
Fixpoint get_field (f : string) (d : document) : option value :=
  match d with
  | [] => None
  | (k, v) :: rest => if String.eqb k f then Some v else get_field f rest
  end.

(** Writing a field: in place when the document has it, appended when not. *)
Fixpoint set_field (f : string) (v : value) (d : document) : document :=
  match d with
  | [] => [(f, v)]
  | (k, w) :: rest =>
      if String.eqb k f then (k, v) :: rest else (k, w) :: set_field f v rest
  end.

Definition keys (d : document) : list string := map fst d.

Definition is_array (v : value) : bool :=
  match v with
  | VArr _ => true
  | _ => false
  end.

(** Whether some field named [f] of [d] holds an array. *)
Definition holds_array (f : string) (d : document) : bool :=
  existsb (fun kv => String.eqb (fst kv) f && is_array (snd kv)) d.

(** Plain nested access [v.f1.f2...]: through sub-documents only. *)
Fixpoint sub_field (p : list string) (v : value) : option value :=
  match p with
  | [] => Some v
  | f :: rest =>
      match v with
      | VDoc d =>
          match get_field f d with
          | Some w => sub_field rest w
          | None => None
          end
      | _ => None
      end
  end.

(** Whether plain access along [p] in [v] meets an array before its last
    step. *)
Fixpoint meets_array (p : list string) (v : value) : bool :=
  match p with
  | [] => false
  | f :: rest =>
      match v with
      | VDoc d =>
          match get_field f d with
          | Some w =>
              match rest with
              | [] => false
              | _ :: _ => is_array w || meets_array rest w
              end
          | None => false
          end
      | _ => false
      end
  end.

(** ** Expressions of the projection *)

(** The value of a field path [$f1.f2...] on a document.  A missing field,
    or a scalar met before the end of the path, gives a missing value.  An
    array met before the end of the path is traversed: the rest of the path
    is read in each element that is a sub-document, the elements where it is
    missing (and the elements that are not sub-documents) are skipped, and
    the values found are collected in an array. *)
Fixpoint field_path (p : list string) (d : document) : option value :=
  match p with
  | [] => Some (VDoc d)
  | f :: rest =>
      match rest with
      | [] => get_field f d
      | _ :: _ =>
          match get_field f d with
          | Some (VDoc sub) => field_path rest sub
          | Some (VArr items) =>
              Some (VArr (flat_map
                            (fun e =>
                               match e with
                               | VDoc sub =>
                                   match field_path rest sub with
                                   | Some x => [x]
                                   | None => []
                                   end
                               | _ => []
                               end) items))
          | _ => None
          end
      end
  end.

(** [$first]: null on a null, undefined or missing operand; the first
    element of an array, and no value when the array is empty; an error on
    anything else. *)
Definition first_element (operand : option value) : result (option value) :=
  match operand with
  | None | Some VNull | Some VUndefined => Ok (Some VNull)
  | Some (VArr items) => Ok (head items)
  | Some _ => Error FirstArgumentNotArray
  end.

Inductive expr : Type :=
| Literal (v : value)
| FieldPath (p : list string)
| First (e : expr).

Fixpoint eval (e : expr) (root : document) : result (option value) :=
  match e with
  | Literal v => Ok (Some v)
  | FieldPath p => Ok (field_path p root)
  | First e' => do operand <- eval e' root; first_element operand
  end.

(** Splitting the text of a path at its dots. *)
Fixpoint split_dots (s : string) (word : string) : list string :=
  match s with
  | EmptyString => [word]
  | String c rest =>
      if Ascii.eqb c "."%char
      then word :: split_dots rest EmptyString
      else split_dots rest (word ++ String c EmptyString)
  end.

(** A string operand: a field path when it starts with a dollar sign, a
    literal string when it does not. *)
Definition operand (s : string) : expr :=
  match s with
  | String c rest =>
      if Ascii.eqb c "$"%char then FieldPath (split_dots rest EmptyString)
      else Literal (VStr s)
  | EmptyString => Literal (VStr s)
  end.

(** ** Projections *)

(** What a projection says of a top-level field: [1] includes it; a nested
    document of computed fields builds a sub-document. *)
Inductive rule : Type :=
| Include
| Nested (fields : list (string * expr)).

Definition projection : Type := list (string * rule).

Fixpoint rule_of (spec : projection) (f : string) : option rule :=
  match spec with
  | [] => None
  | (k, r) :: rest => if String.eqb k f then Some r else rule_of rest f
  end.

(** [_id] is included unless the projection names it. *)
Definition with_id (spec : projection) : projection :=
  match rule_of spec "_id" with
  | Some _ => spec
  | None => ("_id", Include) :: spec
  end.

(** First pass, over the record in its own order: the fields the projection
    names are written to the output, the others are dropped.  The field of
    a nested projection keeps its place and its value for the second
    pass, which replaces it. *)
Fixpoint apply_projections (spec : projection) (input out : document) : document :=
  match input with
  | [] => out
  | (k, v) :: rest =>
      match rule_of spec k with
      | Some _ => apply_projections spec rest (set_field k v out)
      | None => apply_projections spec rest out
      end
  end.

(** The computed fields of a nested projection, in the order written.  A
    field whose expression has no value is left out. *)
Fixpoint computed_fields (fields : list (string * expr)) (root out : document)
  : result document :=
  match fields with
  | [] => Ok out
  | (f, e) :: rest =>
      do v <- eval e root;
      match v with
      | Some x => computed_fields rest root (set_field f x out)
      | None => computed_fields rest root out
      end
  end.

(** A nested projection of computed fields applied where the record has the
    value [v]: an array is rebuilt element by element, each element
    treated in turn; a sub-document keeps none of its fields (the
    projection includes none of them) and gets the computed fields; a
    scalar is replaced by the document of the computed fields. *)
Fixpoint apply_nested (fields : list (string * expr)) (root : document) (v : value)
  : result value :=
  match v with
  | VArr items =>
      do items' <- (fix each (l : list value) : result (list value) :=
                   match l with
                   | [] => Ok []
                   | x :: xs =>
                       do y <- apply_nested fields root x;
                       do ys <- each xs;
                       Ok (y :: ys)
                   end) items;
      Ok (VArr items')
  | _ => do sub <- computed_fields fields root []; Ok (VDoc sub)
  end.

(** Second pass, over the projection in its own order: each nested
    projection is evaluated on the record and written to the output. *)
Fixpoint apply_expressions (spec : projection) (root out : document) : result document :=
  match spec with
  | [] => Ok out
  | (_, Include) :: rest => apply_expressions rest root out
  | (f, Nested fields) :: rest =>
      do v <- match get_field f out with
              | Some old => apply_nested fields root old
              | None => do sub <- computed_fields fields root []; Ok (VDoc sub)
              end;
      apply_expressions rest root (set_field f v out)
  end.

Definition project_with (spec : projection) (record : document) : result document :=
  let spec' := with_id spec in
  apply_expressions spec' record (apply_projections spec' record []).

(** ** The order query *)

Definition orders_projection : projection :=
  [ ("provider_id", Include);
    ("shop_id", Include);
    ("channel_id", Include);
    ("member_id", Include);
    ("created_date", Include);
    ("modified_date", Include);
    ("shipping_zipcode", Include);
    ("order_id", Include);
    ("order_from", Include);
    ("firstname", Include);
    ("lastname", Include);
    ("email", Include);
    ("phone", Include);
    ("shipping_firstname", Include);
    ("shipping_lastname", Include);
    ("shipping_email", Include);
    ("shipping_phone", Include);
    ("shipping_address_1", Include);
    ("shipping_address_2", Include);
    ("shipping_subdistrict", Include);
    ("shipping_district", Include);
    ("shipping_province", Include);
    ("grand_total", Include);
    ("extern_member_id", Include);
    ("lazada_info", Nested
       [ ("customer_first_name", First (operand "$order_lazada.customer_first_name"));
         ("customer_last_name", First (operand "$order_lazada.customer_last_name")) ]);
    ("shopee_info", Nested
       [ ("shopee_user_id", First (operand "$order_shopee.raw_body.buyer_user_id"));
         ("shopee_user_name", First (operand "$order_shopee.raw_body.buyer_username")) ]);
    ("line_shopping_info", Nested
       [ ("recipientName", operand "$order_line_shopping.shipping_address.recipientName");
         ("address", operand "$order_line_shopping.shipping_address.address");
         ("province", operand "$order_line_shopping.shipping_address.province");
         ("postalCode", operand "$order_line_shopping.shipping_address.postalCode");
         ("phoneNumber", operand "$order_line_shopping.shipping_address.phoneNumber");
         ("email", operand "$order_line_shopping.shipping_address.email");
         ("district", operand "$order_line_shopping.shipping_address.district");
         ("subDistrict", operand "$order_line_shopping.shipping_address.subDistrict") ]) ].

(** The projection of the order query applied to one record. *)
Definition project (record : document) : result document :=
  project_with orders_projection record.

(** ** Filters *)

(** The constants the filters compare with. *)
Inductive constant : Type :=
| CStr (s : string)
| CNum (n : Z).

(** A number literal of the script is a JavaScript number: the literal's
    value rounded to 53 significant bits, to the nearest and to even on a
    tie (for a non-negative integer literal below the overflow bound). *)
Definition js_number (n : Z) : Z :=
  let bits := Z.log2 n + 1 in
  if bits <=? 53 then n
  else
    let shift := bits - 53 in
    let q := Z.shiftr n shift in
    let r := Z.land n (Z.ones shift) in
    let half := Z.shiftl 1 (shift - 1) in
    let q' := if (half <? r) || ((r =? half) && Z.odd q) then q + 1 else q in
    Z.shiftl q' shift.

Definition equals (c : constant) (v : value) : bool :=
  match c, v with
  | CStr a, VStr b => String.eqb a b
  | CNum a, VNum b => a =? b
  | _, _ => false
  end.

(** At the end of the path an array matches when one of its elements does. *)
Definition leaf_matches (c : constant) (v : value) : bool :=
  match v with
  | VArr items => existsb (equals c) items
  | _ => equals c v
  end.

(** Equality on a dotted path (none of whose components is an array
    index): sub-documents are entered, and so are the sub-documents that
    are elements of an array met on the way. *)
Fixpoint path_matches (p : list string) (c : constant) (d : document) : bool :=
  match p with
  | [] => false
  | f :: rest =>
      match get_field f d with
      | None => false
      | Some w =>
          match rest with
          | [] => leaf_matches c w
          | _ :: _ =>
              match w with
              | VDoc sub => path_matches rest c sub
              | VArr items =>
                  existsb (fun e =>
                             match e with
                             | VDoc sub => path_matches rest c sub
                             | _ => false
                             end) items
              | _ => false
              end
          end
      end
  end.

(** A filter document: every condition holds. *)
Definition query : Type := list (string * constant).

Definition query_matches (q : query) (d : document) : bool :=
  forallb (fun cond => path_matches (split_dots (fst cond) EmptyString) (snd cond) d) q.

(** ** Sessions, cursors and the shell's calls *)

(** The shell's state: the database in use, and the collections of every
    database. *)
Record session : Type := Session {
  current_db : string;
  data : gmap string (gmap string (list document))
}.

Definition script (A : Type) : Type := session -> A * session.

Definition ret {A} (a : A) : script A := fun s => (a, s).

Definition bind {A B} (m : script A) (k : A -> script B) : script B :=
  fun s => let (a, s') := m s in k a s'.

Notation "m >> k" := (bind m (fun _ => k)) (at level 60, right associativity).

Definition collection (s : session) (name : string) : list document :=
  default [] (data s !! current_db s ≫= fun colls => colls !! name).

Definition put_collection (name : string) (docs : list document) (s : session) : session :=
  Session (current_db s)
          (<[current_db s := <[name := docs]> (default ∅ (data s !! current_db s))]> (data s)).

Definition use (db : string) : script unit :=
  fun s => (tt, Session db (data s)).

(** A cursor is a query not yet run. *)
Record cursor : Type := Cursor {
  cursor_collection : string;
  cursor_filter : query;
  cursor_projection : projection;
  cursor_sort : list (string * Z);
  cursor_limit : nat
}.

Definition sort (spec : list (string * Z)) (c : cursor) : cursor :=
  Cursor (cursor_collection c) (cursor_filter c) (cursor_projection c) spec (cursor_limit c).

Definition limit (n : nat) (c : cursor) : cursor :=
  Cursor (cursor_collection c) (cursor_filter c) (cursor_projection c) (cursor_sort c) n.

(** An empty projection document returns the documents whole. *)
Definition project_document (p : projection) (d : document) : result document :=
  match p with
  | [] => Ok d
  | _ :: _ => project_with p d
  end.

Fixpoint project_all (p : projection) (docs : list document) : result (list document) :=
  match docs with
  | [] => Ok []
  | d :: rest =>
      do d' <- project_document p d;
      do rest' <- project_all p rest;
      Ok (d' :: rest')
  end.

(** A limit of zero is no limit. *)
Definition take_limit (n : nat) (docs : list document) : list document :=
  match n with
  | O => docs
  | S _ => firstn n docs
  end.

(** Removing the first document that matches, if there is one. *)
Fixpoint remove_first (q : query) (docs : list document) : option (list document) :=
  match docs with
  | [] => None
  | d :: rest =>
      if query_matches q d then Some rest
      else option_map (cons d) (remove_first q rest)
  end.

(** The calls on [db] and on a collection.  A collection is handled by
    its name; [find] builds a cursor, [deleteOne] deletes at once and
    returns the number of documents deleted. *)
Module Db.

Definition getCollection (name : string) : string := name.

Definition find (coll : string) (q : query) (p : projection) : cursor :=
  Cursor coll q p [] 0.

Definition deleteOne (coll : string) (q : query) : script nat :=
  fun s =>
    match remove_first q (collection s coll) with
    | Some docs => (1%nat, put_collection coll docs s)
    | None => (0%nat, s)
    end.

End Db.

Section Server.

(** How the server orders documents for a sort specification that is not
    empty is its own business: the order of BSON values of every type,
    and the order among documents with equal keys. *)
Variable server_sort : list (string * Z) -> list document -> list document.

(** The documents a cursor selects, before they are projected: filtered,
    then sorted (an empty sort document leaves them in their stored
    order), then cut at the limit. *)
Definition selected (c : cursor) (s : session) : list document :=
  let found := List.filter (query_matches (cursor_filter c)) (collection s (cursor_collection c)) in
  let sorted := match cursor_sort c with
                | [] => found
                | _ :: _ => server_sort (cursor_sort c) found
                end in
  take_limit (cursor_limit c) sorted.

(** Running a cursor reads the session and leaves it as it is. *)
Definition run (c : cursor) : script (result (list document)) :=
  fun s => (project_all (cursor_projection c) (selected c s), s).

End Server.

(** ** The order script *)

Module Orders.

Definition orders_filter : query := [ ("full_order_code", CStr "WN0303255") ].

Definition orders_cursor : cursor :=
  limit 1 (sort [("created_date", -1)]
             (Db.find (Db.getCollection "btw_orders") orders_filter orders_projection)).

Definition playground (server_sort : list (string * Z) -> list document -> list document)
  : script (result (list document)) :=
  use "OmniService" >> run server_sort orders_cursor.

(** The records the script selects, before it projects them. *)
Definition selection (server_sort : list (string * Z) -> list document -> list document)
           (s : session) : list document :=
  selected server_sort orders_cursor (snd (use "OmniService" s)).

End Orders.

(** ** The customer script *)

Module Customers.

Definition customer_filter : query :=
  [ ("orders.order_id", CNum (js_number 6208981112233112233)) ].

Definition find (server_sort : list (string * Z) -> list document -> list document)
  : script (result (list document)) :=
  run server_sort
    (sort [] (Db.find (Db.getCollection "crm_customer_profiles") customer_filter [])).

Definition deleteOne : script nat :=
  Db.deleteOne (Db.getCollection "crm_customer_profiles")
    [ ("_id", CStr "44f4b399-84ab-548f-b801-52ca177bf266") ].

(** The script sets the database, defines the two functions and calls
    [find]; the call of [deleteOne] is commented out. *)
Definition playground (server_sort : list (string * Z) -> list document -> list document)
  : script (result (list document)) :=
  use "report_db" >> find server_sort.

End Customers.

(** ** Vocabulary of the proofs and of the claims *)

Definition nested_names (spec : projection) : list string :=
  flat_map (fun kr => match snd kr with Nested _ => [fst kr] | Include => [] end) spec.

(** What a field path collects in the elements of an array. *)
Definition collected (path : list string) (items : list value) : list value :=
  flat_map (fun e =>
              match e with
              | VDoc sub =>
                  match field_path path sub with
                  | Some x => [x]
                  | None => []
                  end
              | _ => []
              end) items.

Fixpoint distinct (names : list string) : bool :=
  match names with
  | [] => true
  | n :: rest => negb (existsb (String.eqb n) rest) && distinct rest
  end.

(** The fields the projection computes with [$first] over a path into a
    sequence: [info.name] is [{$first: "$seq.path"}]. *)
Definition first_of_rule (info name seq : string) (path : list string) : Prop :=
  exists fields,
    In (info, Nested fields) orders_projection /\
    In (name, First (FieldPath (seq :: path))) fields.


Definition line_shopping_fields : list (string * expr) :=
  match rule_of orders_projection "line_shopping_info" with
  | Some (Nested fields) => fields
  | _ => []
  end.

(** The optional sequences of a well-formed record: absent, null, or an
    array. *)
Definition optional_sequence (f : string) (d : document) : bool :=
  match get_field f d with
  | None | Some VNull | Some (VArr _) => true
  | Some _ => false
  end.

Definition null_or_absent (v : option value) : Prop := v = None \/ v = Some VNull.

(** ** Sample records and sessions *)

Definition scenario_record : document :=
  [ ("full_order_code", VStr "WN0303255");
    ("order_lazada",
      VArr [ VDoc [ ("customer_first_name", VStr "A");
                    ("customer_last_name", VStr "B") ] ]);
    ("order_shopee", VArr []);
    ("order_line_shopping", VNull) ].

(** An order whose first Lazada entry has no first name. *)
Definition mixed_lazada_record : document :=
  [ ("order_lazada",
      VArr [ VDoc [ ("customer_last_name", VStr "B0") ];
             VDoc [ ("customer_first_name", VStr "A1");
                    ("customer_last_name", VStr "B1") ] ]) ].

Definition mixed_lazada_view : document :=
  [ ("lazada_info", VDoc [ ("customer_first_name", VStr "A1");
                           ("customer_last_name", VStr "B0") ]);
    ("shopee_info", VDoc [ ("shopee_user_id", VNull);
                           ("shopee_user_name", VNull) ]);
    ("line_shopping_info", VDoc []) ].

Definition shopee_record : document :=
  [ ("_id", VNum 7);
    ("order_shopee",
      VArr [ VDoc [ ("raw_body", VDoc [ ("buyer_user_id", VNum 1001);
                                        ("buyer_username", VStr "somchai") ]) ];
             VDoc [ ("raw_body", VDoc [ ("buyer_user_id", VNum 1002) ]) ] ]) ].

Definition shopee_view : document :=
  [ ("_id", VNum 7);
    ("lazada_info", VDoc [ ("customer_first_name", VNull);
                           ("customer_last_name", VNull) ]);
    ("shopee_info", VDoc [ ("shopee_user_id", VNum 1001);
                           ("shopee_user_name", VStr "somchai") ]);
    ("line_shopping_info", VDoc []) ].



Definition empty_sequences_record : document :=
  [ ("provider_id", VNum 12); ("order_lazada", VArr []); ("order_shopee", VNull) ].

Definition profile (oid : Z) : document :=
  [ ("_id", VStr "p1"); ("orders", VArr [ VDoc [ ("order_id", VNum oid) ] ]) ].

Definition one_profile (oid : Z) : session :=
  Session "test" {[ "report_db" := {[ "crm_customer_profiles" := [ profile oid ] ]} ]}.

(** A server that returns equal keys, and all else, in stored order. *)
Definition stored_order (spec : list (string * Z)) (docs : list document) : list document :=
  docs.

Definition orders_session : session :=
  Session "test"
    {[ "OmniService" :=
         {[ "btw_orders" :=
              [ [ ("_id", VNum 1); ("full_order_code", VStr "WN0302230") ];
                ("_id", VNum 2) :: ("grand_total", VNum 590) :: scenario_record ] ]} ]}.

(** ** The claims the code does not meet as worded *)

(** C1, as the specification words it: each first-of-sequence field of the
    output is that field of element 0 of the sequence. *)
Definition takes_element_zero : Prop :=
  forall (record out : document) (info name seq : string) (path : list string)
         (e0 : value) (rest : list value),
    project record = Ok out ->
    first_of_rule info name seq path ->
    get_field seq record = Some (VArr (e0 :: rest)) ->
    sub_field [info; name] (VDoc out) = sub_field path e0.


(** C3, as the specification words it: on a well-formed record the
    projection succeeds, and the output sub-object of an empty or missing
    sequence, or of an absent sub-document, is absent or null. *)
Definition absent_data_gives_null_or_absent : Prop :=
  forall (record : document),
    optional_sequence "order_lazada" record = true ->
    optional_sequence "order_shopee" record = true ->
    exists out,
      project record = Ok out /\
      (get_field "order_lazada" record = None \/
       get_field "order_lazada" record = Some (VArr []) ->
       null_or_absent (get_field "lazada_info" out)) /\
      (get_field "order_shopee" record = None \/
       get_field "order_shopee" record = Some (VArr []) ->
       null_or_absent (get_field "shopee_info" out)) /\
      (get_field "order_line_shopping" record = None ->
       null_or_absent (get_field "line_shopping_info" out)).

(** C4, as the specification words it: the scenario's output has the two
    names in [lazada_info], and null for [shopee_info] and for
    [line_shopping_info]. *)
Definition scenario_gives_nulls : Prop :=
  exists out,
    project scenario_record = Ok out /\
    get_field "lazada_info" out = Some (VDoc [ ("customer_first_name", VStr "A");
                                               ("customer_last_name", VStr "B") ]) /\
    get_field "shopee_info" out = Some VNull /\
    get_field "line_shopping_info" out = Some VNull.

(** C5, as the specification words it: every field of the output is one
    the projection names. *)
Definition only_named_fields : Prop :=
  forall (record out : document) (k : string),
    project record = Ok out ->
    In k (keys out) ->
    In k (map fst orders_projection).

(** ** Vocabulary of the further properties *)

(** Whether the projection of the order query includes a top-level field
    as it is ([_id] among them). *)
Definition included (k : string) : bool :=
  match rule_of (with_id orders_projection) k with
  | Some Include => true
  | _ => false
  end.

(** The sub-objects the projection computes, and the computed fields of
    each. *)
Definition info_names : list string := ["lazada_info"; "shopee_info"; "line_shopping_info"].

Definition nested_fields (info : string) : list (string * expr) :=
  match rule_of orders_projection info with
  | Some (Nested fields) => fields
  | _ => []
  end.

(** The fields of the record the expressions of the projection read. *)
Definition source_names : list string :=
  ["order_lazada"; "order_shopee"; "order_line_shopping"].

(** The operands [$first] takes without an error, when there is one. *)
Definition first_accepts (v : value) : bool :=
  match v with
  | VNull | VUndefined | VArr _ => true
  | _ => false
  end.

(** After the first pass: the place of a sub-object holds no array. *)
Definition plain_slot (out : document) (info : string) : Prop :=
  match get_field info out with
  | Some w => is_array w = false
  | None => True
  end.

(** The filter of [deleteOne]. *)
Definition delete_filter : query :=
  [ ("_id", CStr "44f4b399-84ab-548f-b801-52ca177bf266") ].

(** A sort that returns no document it was not given. *)
Definition sort_invents_nothing
           (server_sort : list (string * Z) -> list document -> list document) : Prop :=
  forall spec docs d, In d (server_sort spec docs) -> In d docs.

(** An order with scalars, some of them projected, and a Lazada entry. *)
Definition full_record : document :=
  [ ("_id", VNum 2);
    ("provider_id", VNum 3);
    ("full_order_code", VStr "WN0303255");
    ("grand_total", VNum 590);
    ("order_from", VNum 31);
    ("order_lazada",
      VArr [ VDoc [ ("customer_first_name", VStr "A");
                    ("customer_last_name", VStr "B") ] ]);
    ("internal_note", VStr "call before delivery") ].

Definition full_view : document :=
  [ ("_id", VNum 2);
    ("provider_id", VNum 3);
    ("grand_total", VNum 590);
    ("order_from", VNum 31);
    ("lazada_info", VDoc [ ("customer_first_name", VStr "A");
                           ("customer_last_name", VStr "B") ]);
    ("shopee_info", VDoc [ ("shopee_user_id", VNull);
                           ("shopee_user_name", VNull) ]);
    ("line_shopping_info", VDoc []) ].

(** An order whose Shopee data is one sub-document, not a sequence. *)
Definition single_shopee_record : document :=
  [ ("order_shopee",
      VDoc [ ("raw_body", VDoc [ ("buyer_user_id", VNum 1001);
                                 ("buyer_username", VStr "somchai") ]) ]) ].

(** A record the filter of the order query selects: its order code is the
    one asked for, or is an array that has it. *)
Definition has_order_code (d : document) : Prop :=
  get_field "full_order_code" d = Some (VStr "WN0303255") \/
  exists items, get_field "full_order_code" d = Some (VArr items) /\
                In (VStr "WN0303255") items.

(** The orders the order script reads. *)
Definition stored_orders (s : session) : list document :=
  collection (Session "OmniService" (data s)) "btw_orders".

(** The profiles the customer script reads. *)
Definition stored_profiles (s : session) : list document :=
  collection (Session "report_db" (data s)) "crm_customer_profiles".

(** A profile as the customer collection holds them: its [orders] is a
    sequence of sub-documents, each with a number for [order_id]. *)
Definition well_shaped_profile (p : document) : Prop :=
  exists items,
    get_field "orders" p = Some (VArr items) /\
    Forall (fun e => exists o n, e = VDoc o /\ get_field "order_id" o = Some (VNum n)) items.

(** Whether one of the orders of a profile has the number the filter of
    [find] holds. *)
Definition has_rounded_order (p : document) : bool :=
  match get_field "orders" p with
  | Some (VArr items) =>
      existsb (fun e =>
                 match e with
                 | VDoc o =>
                     match get_field "order_id" o with
                     | Some (VNum n) => n =? 6208981112233112576
                     | _ => false
                     end
                 | _ => false
                 end) items
  | _ => false
  end.

(** Whether [deleteOne] would pick the document. *)
Definition targeted (d : document) : bool := query_matches delete_filter d.

(** The customer script with the call of [deleteOne] put back, before the
    call of [find]. *)
Definition delete_then_find
           (server_sort : list (string * Z) -> list document -> list document)
  : script (result (list document)) :=
  use "report_db" >> (Customers.deleteOne >> Customers.find server_sort).

Definition two_profiles : session :=
  Session "report_db"
    {[ "report_db" :=
         {[ "crm_customer_profiles" :=
              [ [ ("_id", VStr "p0");
                  ("orders", VArr [ VDoc [ ("order_id", VNum 6208981112233112576) ] ]) ];
                [ ("_id", VStr "44f4b399-84ab-548f-b801-52ca177bf266");
                  ("orders", VArr [ VDoc [ ("order_id", VNum 6208981112233112576) ];
                                    VDoc [ ("order_id", VNum 17) ] ]) ];
                [ ("_id", VStr "p2"); ("orders", VArr []) ] ];
            "audit" := [ [ ("_id", VNum 1) ] ] ]};
       "OmniService" := {[ "btw_orders" := [ full_record ] ]} ]}.

(** The field of the record a sub-object is computed from. *)
Definition source_of (info : string) : string :=
  if String.eqb info "lazada_info" then "order_lazada"
  else if String.eqb info "shopee_info" then "order_shopee"
  else "order_line_shopping".

(** A sort that returns every document it was given. *)
Definition sort_loses_nothing
           (server_sort : list (string * Z) -> list document -> list document) : Prop :=
  forall spec docs d, In d docs -> In d (server_sort spec docs).

(** Two orders with the same Lazada entries and nothing else in common. *)
Definition lazada_only_record : document :=
  [ ("_id", VNum 9);
    ("order_lazada",
      VArr [ VDoc [ ("customer_first_name", VStr "A");
                    ("customer_last_name", VStr "B") ] ]);
    ("order_shopee",
      VArr [ VDoc [ ("raw_body", VDoc [ ("buyer_user_id", VNum 5) ]) ] ]) ].

Definition lazada_only_view : document :=
  [ ("_id", VNum 9);
    ("lazada_info", VDoc [ ("customer_first_name", VStr "A");
                           ("customer_last_name", VStr "B") ]);
    ("shopee_info", VDoc [ ("shopee_user_id", VNum 5) ]);
    ("line_shopping_info", VDoc []) ].

(** Whether the projection of the order query names a top-level field
    or reads it. *)
Definition read_by_projection (k : string) : bool :=
  match rule_of (with_id orders_projection) k with
  | Some _ => true
  | None => existsb (String.eqb k) source_names
  end.

(** The part of a record the projection names or reads, in the order of
    the record. *)
Definition footprint (record : document) : document :=
  List.filter (fun kv => read_by_projection (fst kv)) record.

(** A server that returns equal keys in the reverse of their stored order. *)
Definition reversed_order (spec : list (string * Z)) (docs : list document) : list document :=
  rev docs.

(** An order with the fields of [full_record] that the projection names or
    reads, and other fields around them. *)
Definition relabelled_record : document :=
  [ ("warehouse", VStr "BKK");
    ("_id", VNum 2);
    ("provider_id", VNum 3);
    ("grand_total", VNum 590);
    ("full_order_code", VStr "WN0302230");
    ("order_from", VNum 31);
    ("order_lazada",
      VArr [ VDoc [ ("customer_first_name", VStr "A");
                    ("customer_last_name", VStr "B") ] ]) ].

(** Two stored orders with the code and the same [created_date]. *)
Definition tied_orders_session : session :=
  Session "test"
    {[ "OmniService" :=
         {[ "btw_orders" :=
              [ [ ("_id", VNum 1); ("full_order_code", VStr "WN0303255");
                  ("created_date", VNum 20250303); ("grand_total", VNum 100) ];
                [ ("_id", VNum 2); ("full_order_code", VStr "WN0303255");
                  ("created_date", VNum 20250303); ("grand_total", VNum 250) ] ] ]} ]}.

(** Stored orders none of which has the code. *)
Definition other_orders_session : session :=
  Session "test"
    {[ "OmniService" :=
         {[ "btw_orders" :=
              [ [ ("_id", VNum 1); ("full_order_code", VStr "WN0302230");
                  ("grand_total", VNum 100) ];
                [ ("_id", VNum 2); ("grand_total", VNum 250) ] ] ]} ]}.

(** Stored profiles none of which has the [_id] written in [deleteOne]. *)
Definition other_profiles_session : session :=
  Session "report_db"
    {[ "report_db" :=
         {[ "crm_customer_profiles" :=
              [ [ ("_id", VStr "p0"); ("orders", VArr []) ];
                [ ("_id", VStr "44f4b399"); ("orders", VArr []) ] ] ]} ]}.

Ltac in_cases H :=
  vm_compute in H;
  repeat (destruct H as [H|H]; [try discriminate H|]);
  try contradiction.

(** ** Documents: reading after writing *)

Lemma get_set_same (f : string) (v : value) (d : document) :
  get_field f (set_field f v d) = Some v.
Proof.
  induction d as [|[k w] rest IH]; simpl.
  - now rewrite String.eqb_refl.
  - destruct (String.eqb k f) eqn:E; simpl; rewrite E; auto.
Qed.

Lemma get_set_other (f g : string) (v : value) (d : document) :
  f <> g -> get_field g (set_field f v d) = get_field g d.
Proof.
  intros Hne. induction d as [|[k w] rest IH]; simpl.
  - destruct (String.eqb f g) eqn:E; auto.
    apply String.eqb_eq in E. contradiction.
  - destruct (String.eqb k f) eqn:E; simpl.
    + apply String.eqb_eq in E. subst k.
      destruct (String.eqb f g) eqn:E'; auto.
      apply String.eqb_eq in E'. contradiction.
    + destruct (String.eqb k g); auto.
Qed.

Lemma keys_set_field (f k : string) (v : value) (d : document) :
  In k (keys (set_field f v d)) -> k = f \/ In k (keys d).
Proof.
  induction d as [|[k' w] rest IH]; simpl.
  - intros [H|[]]; auto.
  - destruct (String.eqb k' f); simpl; intros [H|H]; auto.
    destruct (IH H); auto.
Qed.

Lemma get_field_In (f : string) (v : value) (d : document) :
  get_field f d = Some v -> In (f, v) d.
Proof.
  induction d as [|[k w] rest IH]; simpl; [discriminate|].
  destruct (String.eqb k f) eqn:E.
  - apply String.eqb_eq in E. intros [= ->]. subst. now left.
  - intros H. right. auto.
Qed.

Lemma holds_array_In (f : string) (d : document) (items : list value) :
  holds_array f d = false -> ~ In (f, VArr items) d.
Proof.
  unfold holds_array. intros H Hin.
  assert (existsb (fun kv => String.eqb (fst kv) f && is_array (snd kv)) d = true) as E.
  { apply existsb_exists. exists (f, VArr items). split; [exact Hin|].
    simpl. now rewrite String.eqb_refl. }
  congruence.
Qed.

Lemma rule_of_In (spec : projection) (f : string) (r : rule) :
  rule_of spec f = Some r -> In (f, r) spec.
Proof.
  induction spec as [|[k r'] rest IH]; simpl; [discriminate|].
  destruct (String.eqb k f) eqn:E.
  - apply String.eqb_eq in E. intros [= ->]. subst. now left.
  - intros H. right. auto.
Qed.

(** ** The first pass *)

Lemma keys_apply_projections (spec : projection) (input out : document) (k : string) :
  In k (keys (apply_projections spec input out)) ->
  In k (keys out) \/ In k (map fst spec).
Proof.
  revert out. induction input as [|[f v] rest IH]; simpl; intros out H; auto.
  destruct (rule_of spec f) as [r|] eqn:E; auto.
  destruct (IH _ H) as [H'|H']; auto.
  apply keys_set_field in H' as [->|H']; auto.
  right. apply rule_of_In in E. apply (in_map fst) in E. exact E.
Qed.

Lemma get_apply_projections (spec : projection) (input out : document) (f : string) (v : value) :
  get_field f (apply_projections spec input out) = Some v ->
  get_field f out = Some v \/ In (f, v) input.
Proof.
  revert out. induction input as [|[k w] rest IH]; simpl; intros out H; auto.
  destruct (rule_of spec k) as [r|].
  - destruct (IH _ H) as [H'|H']; auto.
    destruct (string_dec k f) as [->|Hne].
    + rewrite get_set_same in H'. injection H' as ->. auto.
    + rewrite get_set_other in H' by exact Hne. auto.
  - destruct (IH _ H); auto.
Qed.

(** After the first pass a field holds an array only if the record has an
    array under that name. *)
Lemma apply_projections_no_array (spec : projection) (record : document) (f : string) :
  holds_array f record = false ->
  match get_field f (apply_projections spec record []) with
  | Some v => is_array v = false
  | None => True
  end.
Proof.
  intros H.
  destruct (get_field f (apply_projections spec record [])) as [v|] eqn:E; [|exact I].
  apply get_apply_projections in E as [E|E]; [discriminate|].
  destruct v; try reflexivity.
  exfalso. exact (holds_array_In _ _ _ H E).
Qed.

(** ** Computed fields *)

Lemma computed_fields_other (fields : list (string * expr)) (root acc sub : document) (f : string) :
  computed_fields fields root acc = Ok sub ->
  ~ In f (map fst fields) ->
  get_field f sub = get_field f acc.
Proof.
  revert acc. induction fields as [|[k e] rest IH]; simpl; intros acc H Hnot.
  - now injection H as ->.
  - destruct (eval e root) as [[x|]|]; simpl in H; try discriminate.
    + rewrite (IH _ H) by tauto. apply get_set_other. tauto.
    + apply IH; tauto.
Qed.

Lemma computed_fields_get_acc (fields : list (string * expr)) (root acc sub : document)
      (f : string) (e : expr) :
  List.NoDup (map fst fields) ->
  computed_fields fields root acc = Ok sub ->
  In (f, e) fields ->
  exists ov, eval e root = Ok ov /\
             get_field f sub = match ov with
                               | Some x => Some x
                               | None => get_field f acc
                               end.
Proof.
  revert acc.
  induction fields as [|[k e'] rest IH]; simpl; intros acc Hnd H Hin; [contradiction|].
  inversion Hnd as [|? ? Hk Hnd']; subst.
  destruct Hin as [Heq|Hin].
  - injection Heq as -> ->.
    destruct (eval e root) as [[x|]|] eqn:E; simpl in H; try discriminate.
    + exists (Some x). split; [reflexivity|].
      rewrite (computed_fields_other _ _ _ _ _ H Hk). apply get_set_same.
    + exists None. split; [reflexivity|].
      apply (computed_fields_other _ _ _ _ _ H Hk).
  - assert (k <> f) as Hne.
    { intros ->. apply Hk. apply (in_map fst) in Hin. exact Hin. }
    destruct (eval e' root) as [[x|]|] eqn:E; simpl in H; try discriminate.
    + destruct (IH _ Hnd' H Hin) as (ov & Hov & Hget). exists ov. split; [exact Hov|].
      rewrite Hget. destruct ov; [reflexivity|]. now apply get_set_other.
    + eauto.
Qed.

(** A computed field holds the value of its expression, and is missing when
    the expression has none. *)
Lemma computed_fields_get (fields : list (string * expr)) (root sub : document)
      (f : string) (e : expr) :
  List.NoDup (map fst fields) ->
  computed_fields fields root [] = Ok sub ->
  In (f, e) fields ->
  eval e root = Ok (get_field f sub).
Proof.
  intros Hnd H Hin.
  destruct (computed_fields_get_acc _ _ _ _ _ _ Hnd H Hin) as (ov & Hov & Hget).
  rewrite Hov, Hget. now destruct ov.
Qed.

Lemma keys_computed_fields (fields : list (string * expr)) (root acc sub : document) (k : string) :
  computed_fields fields root acc = Ok sub ->
  In k (keys sub) ->
  In k (keys acc) \/ In k (map fst fields).
Proof.
  revert acc. induction fields as [|[f e] rest IH]; simpl; intros acc H Hin.
  - injection H as ->. auto.
  - destruct (eval e root) as [[x|]|]; simpl in H; try discriminate.
    + destruct (IH _ H Hin) as [H'|H']; auto.
      apply keys_set_field in H' as [->|H']; auto.
    + destruct (IH _ H Hin); auto.
Qed.

(** When no expression has a value the sub-document is empty. *)
Lemma computed_fields_none (fields : list (string * expr)) (root acc : document) :
  (forall f e, In (f, e) fields -> eval e root = Ok None) ->
  computed_fields fields root acc = Ok acc.
Proof.
  induction fields as [|[f e] rest IH]; simpl; intros H; [reflexivity|].
  rewrite (H f e) by auto. simpl. apply IH. intros; eauto.
Qed.

(** Computed fields never fail when their expressions do not. *)
Lemma computed_fields_total (fields : list (string * expr)) (root acc : document) :
  (forall f e, In (f, e) fields -> exists ov, eval e root = Ok ov) ->
  exists sub, computed_fields fields root acc = Ok sub.
Proof.
  revert acc. induction fields as [|[f e] rest IH]; simpl; intros acc H; [eauto|].
  destruct (H f e) as [ov Hov]; auto. rewrite Hov. simpl.
  destruct ov; apply IH; intros; eauto.
Qed.

(** ** Nested projections *)

Lemma apply_nested_not_array (fields : list (string * expr)) (root : document) (v : value) :
  is_array v = false ->
  apply_nested fields root v = (do sub <- computed_fields fields root []; Ok (VDoc sub)).
Proof. destruct v; simpl; intros H; try reflexivity; discriminate. Qed.

(** An induction principle that reaches the elements of arrays and the
    fields of sub-documents. *)
Lemma value_ind (P : value -> Prop) :
  P VNull -> P VUndefined -> (forall b, P (VBool b)) -> (forall n, P (VNum n)) ->
  (forall s, P (VStr s)) -> (forall t r, P (VOther t r)) ->
  (forall items, Forall P items -> P (VArr items)) ->
  (forall fields, Forall (fun kv => P (snd kv)) fields -> P (VDoc fields)) ->
  forall v, P v.
Proof.
  intros Hnull Hundef Hbool Hnum Hstr Hother Harr Hdoc.
  fix IH 1. intros [ | |b|n|s|t r|items|fields].
  - exact Hnull.
  - exact Hundef.
  - apply Hbool.
  - apply Hnum.
  - apply Hstr.
  - apply Hother.
  - apply Harr. induction items as [|x xs IHxs]; constructor; [apply IH|exact IHxs].
  - apply Hdoc. induction fields as [|[k x] xs IHxs]; constructor; [apply IH|exact IHxs].
Qed.

Lemma apply_nested_total (fields : list (string * expr)) (root : document) (v : value) :
  (forall f e, In (f, e) fields -> exists ov, eval e root = Ok ov) ->
  exists v', apply_nested fields root v = Ok v'.
Proof.
  intros H.
  induction v as [ | |b|n|s|t r|items IH|fs _] using value_ind;
    try (simpl; destruct (computed_fields_total fields root [] H) as [sub ->]; simpl; eauto).
  simpl.
  assert (exists items',
            (fix each (l : list value) : result (list value) :=
               match l with
               | [] => Ok []
               | x :: xs =>
                   do y <- apply_nested fields root x;
                   do ys <- each xs;
                   Ok (y :: ys)
               end) items = Ok items') as [items' ->].
  { induction IH as [|x xs [y Hy] _ [ys Hys]]; [eauto|].
    rewrite Hy. simpl. rewrite Hys. simpl. eauto. }
  simpl. eauto.
Qed.

(** ** The second pass *)

Lemma apply_expressions_other (spec : projection) (root out out' : document) (f : string) :
  apply_expressions spec root out = Ok out' ->
  ~ In f (nested_names spec) ->
  get_field f out' = get_field f out.
Proof.
  revert out. induction spec as [|[k [|fields]] rest IH]; simpl; intros out H Hnot.
  - now injection H as ->.
  - auto.
  - match type of H with rbind ?m _ = _ => destruct m as [v|] end; simpl in H; [|discriminate].
    rewrite (IH _ H) by tauto. apply get_set_other. tauto.
Qed.

Lemma keys_apply_expressions (spec : projection) (root out out' : document) (k : string) :
  apply_expressions spec root out = Ok out' ->
  In k (keys out') ->
  In k (keys out) \/ In k (map fst spec).
Proof.
  revert out. induction spec as [|[f [|fields]] rest IH]; simpl; intros out H Hin.
  - injection H as ->. auto.
  - destruct (IH _ H Hin); auto.
  - match type of H with rbind ?m _ = _ => destruct m as [v|] end; simpl in H; [|discriminate].
    destruct (IH _ H Hin) as [H'|H']; auto.
    apply keys_set_field in H' as [->|H']; auto.
Qed.

(** The field of a nested projection holds, after the second pass, the
    nested projection applied to what the first pass left there. *)
Lemma apply_expressions_nested (spec : projection) (root out out' : document)
      (f : string) (fields : list (string * expr)) :
  List.NoDup (map fst spec) ->
  apply_expressions spec root out = Ok out' ->
  In (f, Nested fields) spec ->
  exists v,
    match get_field f out with
    | Some old => apply_nested fields root old
    | None => do sub <- computed_fields fields root []; Ok (VDoc sub)
    end = Ok v /\ get_field f out' = Some v.
Proof.
  revert out. induction spec as [|[k r] rest IH]; simpl; intros out Hnd H Hin; [contradiction|].
  inversion Hnd as [|? ? Hk Hnd']; subst.
  assert (forall fs, In (k, Nested fs) rest -> False) as Hfresh.
  { intros fs Hfs. apply Hk. apply (in_map fst) in Hfs. exact Hfs. }
  destruct Hin as [Heq|Hin].
  - injection Heq as -> ->.
    match type of H with rbind ?m _ = _ => destruct m as [v|] eqn:E end; simpl in H; [|discriminate].
    exists v. split; [reflexivity|].
    rewrite (apply_expressions_other _ _ _ _ _ H).
    + apply get_set_same.
    + unfold nested_names. rewrite in_flat_map. intros ([k' [|fs]] & Hk' & Hin'); simpl in Hin'.
      * contradiction.
      * destruct Hin' as [<-|[]]. eauto.
  - assert (k <> f) as Hne by (intros ->; eauto).
    destruct r as [|fs]; [eauto|].
    match type of H with rbind ?m _ = _ => destruct m as [v|] eqn:E end; simpl in H; [|discriminate].
    destruct (IH _ Hnd' H Hin) as (v' & Hv' & Hget). exists v'. split; [|exact Hget].
    now rewrite get_set_other in Hv' by exact Hne.
Qed.

Lemma apply_expressions_total (spec : projection) (root out : document) :
  (forall f fields k e, In (f, Nested fields) spec -> In (k, e) fields ->
                        exists ov, eval e root = Ok ov) ->
  exists out', apply_expressions spec root out = Ok out'.
Proof.
  revert out. induction spec as [|[f [|fields]] rest IH]; simpl; intros out H.
  - eauto.
  - apply IH. intros; eauto.
  - assert (forall k e, In (k, e) fields -> exists ov, eval e root = Ok ov) as Hf
        by (intros; eauto).
    assert (exists v, match get_field f out with
                      | Some old => apply_nested fields root old
                      | None => do sub <- computed_fields fields root []; Ok (VDoc sub)
                      end = Ok v) as [v ->].
    { destruct (get_field f out) as [old|].
      - apply apply_nested_total, Hf.
      - destruct (computed_fields_total fields root [] Hf) as [sub ->]. simpl. eauto. }
    simpl. apply IH. intros; eauto.
Qed.

(** ** Field paths and plain access *)

Lemma field_path_array (f g : string) (path : list string) (d : document) (items : list value) :
  get_field f d = Some (VArr items) ->
  field_path (f :: g :: path) d = Some (VArr (collected (g :: path) items)).
Proof. intros H. simpl. rewrite H. reflexivity. Qed.

Lemma field_path_plain (p : list string) (d : document) :
  p <> [] ->
  meets_array p (VDoc d) = false ->
  field_path p d = sub_field p (VDoc d).
Proof.
  revert d. induction p as [|f rest IH]; intros d Hne Hm; [contradiction|].
  destruct rest as [|g rest].
  - simpl. now destruct (get_field f d).
  - change (field_path (f :: g :: rest) d)
      with (match get_field f d with
            | Some (VDoc sub) => field_path (g :: rest) sub
            | Some (VArr items) => Some (VArr (collected (g :: rest) items))
            | _ => None
            end).
    change (sub_field (f :: g :: rest) (VDoc d))
      with (match get_field f d with
            | Some w => sub_field (g :: rest) w
            | None => None
            end).
    change (meets_array (f :: g :: rest) (VDoc d))
      with (match get_field f d with
            | Some w => is_array w || meets_array (g :: rest) w
            | None => false
            end) in Hm.
    destruct (get_field f d) as [w|]; [|reflexivity].
    destruct w; try reflexivity.
    + discriminate Hm.
    + apply IH; [discriminate|exact Hm].
Qed.

Lemma sub_field_scalar (p : list string) (v : value) :
  p <> [] -> (forall d, v <> VDoc d) -> sub_field p v = None.
Proof.
  destruct p as [|f rest]; [contradiction|]. intros _ H.
  destruct v; try reflexivity. now destruct (H fields).
Qed.

(** Where no element has an array on the way, a field path collects what
    plain access finds in each element. *)
Lemma collected_plain (path : list string) (items : list value) :
  path <> [] ->
  Forall (fun e => meets_array path e = false) items ->
  collected path items = omap (sub_field path) items.
Proof.
  intros Hne H. induction H as [|e rest He _ IH]; [reflexivity|].
  change (collected path (e :: rest))
    with ((match e with
           | VDoc sub => match field_path path sub with Some x => [x] | None => [] end
           | _ => []
           end ++ collected path rest)%list).
  change (omap (sub_field path) (e :: rest))
    with (match sub_field path e with
          | Some y => y :: omap (sub_field path) rest
          | None => omap (sub_field path) rest
          end).
  rewrite IH.
  destruct e; try (rewrite sub_field_scalar by (auto; discriminate); reflexivity).
  rewrite field_path_plain by assumption.
  now destruct (sub_field path (VDoc fields)).
Qed.

(** The elements a field path skips do not count. *)
Lemma collected_skip (path : list string) (skipped rest : list value) :
  path <> [] ->
  Forall (fun e => sub_field path e = None /\ meets_array path e = false) skipped ->
  collected path (skipped ++ rest) = collected path rest.
Proof.
  intros Hne H. unfold collected. rewrite flat_map_app.
  replace (flat_map _ skipped) with (@nil value); [reflexivity|].
  symmetry. fold (collected path skipped).
  rewrite collected_plain; [|exact Hne|].
  - induction H as [|e l [He _] _ IH]; [reflexivity|].
    change (omap (sub_field path) (e :: l))
      with (match sub_field path e with
            | Some y => y :: omap (sub_field path) l
            | None => omap (sub_field path) l
            end).
    now rewrite He.
  - eapply Forall_impl; [exact H|]. now intros e [_ He].
Qed.

(** ** The projection of the order query *)

Lemma distinct_NoDup (names : list string) : distinct names = true -> List.NoDup names.
Proof.
  induction names as [|n rest IH]; simpl; intros H; [constructor|].
  apply andb_true_iff in H as [Hn Hrest]. constructor; [|auto].
  intros Hin. apply negb_true_iff in Hn.
  assert (existsb (String.eqb n) rest = true) as E; [|congruence].
  apply existsb_exists. exists n. split; [exact Hin|apply String.eqb_refl].
Qed.

Lemma orders_names_distinct : List.NoDup (map fst (with_id orders_projection)).
Proof. apply distinct_NoDup. reflexivity. Qed.

Lemma orders_nested_distinct (info : string) (fields : list (string * expr)) :
  In (info, Nested fields) orders_projection -> List.NoDup (map fst fields).
Proof.
  intros H.
  assert (forallb (fun kr => match snd kr with
                             | Nested fs => distinct (map fst fs)
                             | Include => true
                             end) orders_projection = true) as Hall by reflexivity.
  rewrite forallb_forall in Hall. apply distinct_NoDup. exact (Hall _ H).
Qed.

(** In the output, the field of a nested projection is the sub-document of
    its computed fields, unless the record has an array under that very
    name. *)
Lemma project_nested (record out : document) (info : string) (fields : list (string * expr)) :
  project record = Ok out ->
  In (info, Nested fields) orders_projection ->
  holds_array info record = false ->
  exists sub, computed_fields fields record [] = Ok sub /\
              get_field info out = Some (VDoc sub).
Proof.
  unfold project, project_with. intros H Hin Harr.
  destruct (apply_expressions_nested _ _ _ _ info fields orders_names_distinct H)
    as (v & Hv & Hget).
  { right. exact Hin. }
  assert (rbind (computed_fields fields record []) (fun sub => Ok (VDoc sub)) = Ok v) as Hsub.
  { pose proof (apply_projections_no_array (with_id orders_projection) record info Harr) as Hold.
    destruct (get_field info (apply_projections (with_id orders_projection) record []))
      as [old|]; [|exact Hv].
    now rewrite apply_nested_not_array in Hv. }
  destruct (computed_fields fields record []) as [sub|]; [|discriminate].
  injection Hsub as <-. eauto.
Qed.

(** A computed field of the output holds the value of its expression. *)
Lemma project_computed (record out : document) (info name : string)
      (fields : list (string * expr)) (e : expr) :
  project record = Ok out ->
  In (info, Nested fields) orders_projection ->
  In (name, e) fields ->
  holds_array info record = false ->
  eval e record = Ok (sub_field [info; name] (VDoc out)).
Proof.
  intros H Hin Hfield Harr.
  destruct (project_nested _ _ _ _ H Hin Harr) as (sub & Hsub & Hget).
  rewrite (computed_fields_get _ _ _ _ _ (orders_nested_distinct _ _ Hin) Hsub Hfield).
  simpl. rewrite Hget. now destruct (get_field name sub).
Qed.

Lemma first_of_rule_cases (info name seq : string) (path : list string) :
  first_of_rule info name seq path ->
  In (info, name, seq, path)
     [ ("lazada_info", "customer_first_name", "order_lazada", ["customer_first_name"]);
       ("lazada_info", "customer_last_name", "order_lazada", ["customer_last_name"]);
       ("shopee_info", "shopee_user_id", "order_shopee", ["raw_body"; "buyer_user_id"]);
       ("shopee_info", "shopee_user_name", "order_shopee", ["raw_body"; "buyer_username"]) ].
Proof.
  intros (fields & Hinfo & Hname).
  in_cases Hinfo; injection Hinfo as <- <-;
    in_cases Hname; injection Hname as <- <- <-; simpl; auto 6.
Qed.

Lemma first_of_rule_path (info name seq : string) (path : list string) :
  first_of_rule info name seq path -> path <> [].
Proof.
  intros H. apply first_of_rule_cases in H. simpl in H.
  repeat (destruct H as [H|H]; [injection H as <- <- <- <-; discriminate|]).
  contradiction.
Qed.

(** What [$first] over a path into a sequence puts in the output. *)
Lemma first_of_sequence (record out : document) (info name seq : string)
      (path : list string) (items : list value) :
  project record = Ok out ->
  first_of_rule info name seq path ->
  holds_array info record = false ->
  get_field seq record = Some (VArr items) ->
  sub_field [info; name] (VDoc out) = head (collected path items).
Proof.
  intros H Hrule Harr Hseq.
  pose proof (first_of_rule_path _ _ _ _ Hrule) as Hne.
  destruct Hrule as (fields & Hinfo & Hname).
  pose proof (project_computed _ _ _ _ _ _ H Hinfo Hname Harr) as E.
  destruct path as [|g path]; [contradiction|].
  cbn [eval rbind] in E. rewrite (field_path_array _ _ _ _ _ Hseq) in E.
  cbn [first_element] in E. injection E as E. symmetry. exact E.
Qed.

(** ** Claims about the projection *)

Lemma lazada_first_name_rule :
  first_of_rule "lazada_info" "customer_first_name" "order_lazada" ["customer_first_name"].
Proof. eexists. split; [do 24 right; left; reflexivity|left; reflexivity]. Defined.

Lemma shopee_user_id_rule :
  first_of_rule "shopee_info" "shopee_user_id" "order_shopee" ["raw_body"; "buyer_user_id"].
Proof. eexists. split; [do 25 right; left; reflexivity|left; reflexivity]. Defined.

(** C1 fails as worded: the first name comes from the second entry when the
    first entry has none, although element 0 has no first name at all. *)
Lemma takes_element_zero_fails : ~ takes_element_zero.
Proof.
  intros H.
  specialize (H mixed_lazada_record mixed_lazada_view
                "lazada_info" "customer_first_name" "order_lazada" ["customer_first_name"]
                _ _ eq_refl lazada_first_name_rule eq_refl).
  vm_compute in H. discriminate H.
Qed.

(** C1, amended: each first-of-sequence field of the output
    ([lazada_info.customer_first_name], [lazada_info.customer_last_name],
    [shopee_info.shopee_user_id], [shopee_info.shopee_user_name]) is that
    field of the first element of the sequence that has it, hence of
    element 0 whenever element 0 has it; this for a record that holds no
    array under the name of the output sub-object, and whose elements hold
    no array on the way to the field. *)
Theorem first_of_sequence_field
        (record out : document) (info name seq : string) (path : list string)
        (items : list value) :
  project record = Ok out ->
  first_of_rule info name seq path ->
  holds_array info record = false ->
  get_field seq record = Some (VArr items) ->
  Forall (fun e => meets_array path e = false) items ->
  sub_field [info; name] (VDoc out) = head (omap (sub_field path) items) /\
  (forall e0 rest v, items = e0 :: rest -> sub_field path e0 = Some v ->
                     sub_field [info; name] (VDoc out) = Some v).
Proof.
  intros H Hrule Harr Hseq Hplain.
  assert (sub_field [info; name] (VDoc out) = head (omap (sub_field path) items)) as E.
  { rewrite (first_of_sequence _ _ _ _ _ _ _ H Hrule Harr Hseq).
    rewrite collected_plain; [reflexivity| |exact Hplain].
    exact (first_of_rule_path _ _ _ _ Hrule). }
  split; [exact E|].
  intros e0 rest v -> Hv. rewrite E.
  change (omap (sub_field path) (e0 :: rest))
    with (match sub_field path e0 with
          | Some y => y :: omap (sub_field path) rest
          | None => omap (sub_field path) rest
          end).
  now rewrite Hv.
Qed.

Lemma first_of_sequence_field_witness :
  project shopee_record = Ok shopee_view /\
  sub_field ["shopee_info"; "shopee_user_id"] (VDoc shopee_view) = Some (VNum 1001).
Proof.
  split; [reflexivity|].
  refine (proj2 (first_of_sequence_field shopee_record shopee_view
                   "shopee_info" "shopee_user_id" "order_shopee" ["raw_body"; "buyer_user_id"] _
                   eq_refl shopee_user_id_rule eq_refl eq_refl _) _ _ _ eq_refl eq_refl).
  repeat constructor.
Defined.

(** C9: when the first elements of the sequence have no such field (element
    0 among them), a first-of-sequence field of the output holds the value
    found in the first later element that has it, instead of being absent. *)
Theorem first_skips_elements_without_field
        (record out : document) (info name seq : string) (path : list string)
        (skipped later : list value) (d : document) (v : value) :
  project record = Ok out ->
  first_of_rule info name seq path ->
  holds_array info record = false ->
  skipped <> [] ->
  Forall (fun e => sub_field path e = None /\ meets_array path e = false) skipped ->
  sub_field path (VDoc d) = Some v ->
  meets_array path (VDoc d) = false ->
  get_field seq record = Some (VArr (skipped ++ VDoc d :: later)) ->
  sub_field [info; name] (VDoc out) = Some v.
Proof.
  intros H Hrule Harr _ Hskip Hv Hplain Hseq.
  pose proof (first_of_rule_path _ _ _ _ Hrule) as Hne.
  rewrite (first_of_sequence _ _ _ _ _ _ _ H Hrule Harr Hseq).
  rewrite (collected_skip _ _ _ Hne Hskip).
  unfold collected. simpl.
  rewrite (field_path_plain _ _ Hne Hplain), Hv. reflexivity.
Qed.

Lemma first_skips_elements_without_field_witness :
  project mixed_lazada_record = Ok mixed_lazada_view /\
  sub_field ["lazada_info"; "customer_first_name"] (VDoc mixed_lazada_view) = Some (VStr "A1").
Proof.
  split; [reflexivity|].
  refine (first_skips_elements_without_field mixed_lazada_record mixed_lazada_view
            "lazada_info" "customer_first_name" "order_lazada" ["customer_first_name"]
            [ VDoc [ ("customer_last_name", VStr "B0") ] ] []
            [ ("customer_first_name", VStr "A1"); ("customer_last_name", VStr "B1") ]
            (VStr "A1")
            eq_refl lazada_first_name_rule eq_refl _ _ eq_refl eq_refl eq_refl).
  - discriminate.
  - repeat constructor.
Defined.


Lemma line_shopping_rule : In ("line_shopping_info", Nested line_shopping_fields) orders_projection.
Proof. do 26 right. left. reflexivity. Defined.


(** Without an [order_line_shopping] the sub-document has no field. *)
Lemma line_shopping_info_empty (record out : document) :
  project record = Ok out ->
  holds_array "line_shopping_info" record = false ->
  get_field "order_line_shopping" record = None \/
  get_field "order_line_shopping" record = Some VNull ->
  get_field "line_shopping_info" out = Some (VDoc []).
Proof.
  intros H Harr Habsent.
  destruct (project_nested _ _ _ _ H line_shopping_rule Harr) as (sub & Hsub & Hget).
  rewrite computed_fields_none in Hsub.
  - injection Hsub as <-. exact Hget.
  - intros f e Hin. in_cases Hin; injection Hin as <- <-; cbn [eval];
      f_equal; simpl; destruct Habsent as [-> | ->]; reflexivity.
Qed.




(** C3 fails as worded: with an empty [order_lazada] the output has a
    [lazada_info], which is an empty sub-document and not null. *)
Lemma absent_data_gives_null_or_absent_fails : ~ absent_data_gives_null_or_absent.
Proof.
  intros H.
  destruct (H [ ("order_lazada", VArr []) ] eq_refl eq_refl) as (out & Hout & Hlazada & _).
  vm_compute in Hout. injection Hout as <-.
  destruct (Hlazada (or_intror eq_refl)) as [E|E]; discriminate E.
Qed.

Lemma eval_first_total (seq : string) (path : list string) (record : document) :
  optional_sequence seq record = true ->
  path <> [] ->
  exists ov, eval (First (FieldPath (seq :: path))) record = Ok ov.
Proof.
  unfold optional_sequence. intros H Hne.
  destruct path as [|g path]; [contradiction|].
  cbn [eval rbind].
  change (field_path (seq :: g :: path) record)
    with (match get_field seq record with
          | Some (VDoc sub) => field_path (g :: path) sub
          | Some (VArr items) => Some (VArr (collected (g :: path) items))
          | _ => None
          end).
  destruct (get_field seq record) as [[ | | | | | | | ]|]; try discriminate H;
    cbn [first_element]; eauto.
Qed.

Lemma orders_expressions_total (record : document) :
  optional_sequence "order_lazada" record = true ->
  optional_sequence "order_shopee" record = true ->
  forall f fields k e,
    In (f, Nested fields) (with_id orders_projection) -> In (k, e) fields ->
    exists ov, eval e record = Ok ov.
Proof.
  intros Hl Hs f fields k e Hinfo Hname.
  in_cases Hinfo; injection Hinfo as <- <-;
    in_cases Hname; injection Hname as <- <-;
    solve [ apply eval_first_total; [assumption|discriminate]
          | cbn [eval]; eauto ].
Qed.

(** C3, amended: on a record whose [order_lazada] and [order_shopee] are
    each absent, null or an array the projection succeeds, and (for a
    record that holds no array under the name of the output sub-object) the
    sub-object of an empty sequence is present and empty, each
    first-of-sequence field of a missing (or null) sequence is null, and the
    [line_shopping_info] of an absent [order_line_shopping] is present and
    empty: absent data is never an error, and never makes the sub-object
    itself absent or null. *)
Theorem projection_total_on_absent_data (record : document) :
  optional_sequence "order_lazada" record = true ->
  optional_sequence "order_shopee" record = true ->
  exists out,
    project record = Ok out /\
    (forall info name seq path,
        first_of_rule info name seq path ->
        holds_array info record = false ->
        (get_field seq record = Some (VArr []) -> get_field info out = Some (VDoc [])) /\
        (get_field seq record = None \/ get_field seq record = Some VNull ->
         sub_field [info; name] (VDoc out) = Some VNull)) /\
    (holds_array "line_shopping_info" record = false ->
     get_field "order_line_shopping" record = None ->
     get_field "line_shopping_info" out = Some (VDoc [])).
Proof.
  intros Hl Hs.
  destruct (apply_expressions_total (with_id orders_projection) record
              (apply_projections (with_id orders_projection) record [])
              (orders_expressions_total record Hl Hs)) as [out Hout].
  change (project record = Ok out) in Hout.
  exists out. split; [exact Hout|]. split.
  - intros info name seq path Hrule Harr. split.
    + intros Hempty.
      pose proof (first_of_rule_cases _ _ _ _ Hrule) as Hcase.
      destruct Hrule as (fields & Hinfo & _).
      destruct (project_nested _ _ _ _ Hout Hinfo Harr) as (sub & Hsub & Hget).
      rewrite computed_fields_none in Hsub; [injection Hsub as <-; exact Hget|].
      intros f e Hin. simpl in Hcase.
      repeat (destruct Hcase as [Hcase|Hcase];
              [injection Hcase as <- <- <- <-;
               in_cases Hinfo; injection Hinfo as <-;
               in_cases Hin; injection Hin as <- <-;
               cbn [eval rbind]; erewrite field_path_array by exact Hempty; reflexivity|]).
      contradiction.
    + intros Hmissing.
      pose proof (first_of_rule_path _ _ _ _ Hrule) as Hne.
      destruct Hrule as (fields & Hinfo & Hname).
      pose proof (project_computed _ _ _ _ _ _ Hout Hinfo Hname Harr) as E.
      destruct path as [|g path]; [contradiction|].
      cbn [eval rbind] in E.
      change (field_path (seq :: g :: path) record)
        with (match get_field seq record with
              | Some (VDoc sub) => field_path (g :: path) sub
              | Some (VArr items) => Some (VArr (collected (g :: path) items))
              | _ => None
              end) in E.
      destruct Hmissing as [Hm|Hm]; rewrite Hm in E; cbn [first_element] in E;
        injection E as E; symmetry; exact E.
  - intros Harr Habsent.
    exact (line_shopping_info_empty record out Hout Harr (or_introl Habsent)).
Qed.

Lemma lazada_last_name_rule :
  first_of_rule "lazada_info" "customer_last_name" "order_lazada" ["customer_last_name"].
Proof. eexists. split; [do 24 right; left; reflexivity|right; left; reflexivity]. Defined.

Lemma shopee_user_name_rule :
  first_of_rule "shopee_info" "shopee_user_name" "order_shopee" ["raw_body"; "buyer_username"].
Proof. eexists. split; [do 25 right; left; reflexivity|right; left; reflexivity]. Defined.

Lemma projection_total_on_absent_data_witness :
  exists out,
    project empty_sequences_record = Ok out /\
    get_field "lazada_info" out = Some (VDoc []) /\
    get_field "line_shopping_info" out = Some (VDoc []).
Proof.
  destruct (projection_total_on_absent_data empty_sequences_record eq_refl eq_refl)
    as (out & Hout & Hseq & Hline).
  exists out. split; [exact Hout|]. split.
  - exact (proj1 (Hseq _ _ _ _ lazada_first_name_rule eq_refl) eq_refl).
  - exact (Hline eq_refl eq_refl).
Defined.

(** C4 fails as worded. *)
Lemma scenario_gives_nulls_fails : ~ scenario_gives_nulls.
Proof.
  intros (out & Hout & _ & Hshopee & _).
  vm_compute in Hout. injection Hout as <-. discriminate Hshopee.
Qed.

(** C4, amended: on the scenario's record the output is [lazada_info] with
    the two names, an empty [shopee_info] and an empty
    [line_shopping_info]; the record has none of the included scalars
    ([full_order_code] is not one of them), so nothing else is output. *)
Theorem scenario_output :
  project scenario_record =
  Ok [ ("lazada_info", VDoc [ ("customer_first_name", VStr "A");
                              ("customer_last_name", VStr "B") ]);
       ("shopee_info", VDoc []);
       ("line_shopping_info", VDoc []) ].
Proof. reflexivity. Qed.

(** C5 fails as worded: the record's [_id] is output although the
    projection does not name it. *)
Lemma only_named_fields_fails : ~ only_named_fields.
Proof.
  intros H.
  specialize (H [ ("_id", VNum 7); ("provider_id", VNum 12) ] _ "_id" eq_refl).
  vm_compute in H.
  assert (Hin : "_id" = "_id" \/ "provider_id" = "_id" \/ "lazada_info" = "_id" \/
                "shopee_info" = "_id" \/ "line_shopping_info" = "_id" \/ False) by (left; reflexivity).
  specialize (H Hin).
  repeat (destruct H as [H|H]; [discriminate H|]). contradiction.
Qed.

(** C5, amended: every field of the output is [_id] or one the projection
    names. *)
Theorem only_id_and_named_fields (record out : document) (k : string) :
  project record = Ok out ->
  In k (keys out) ->
  k = "_id" \/ In k (map fst orders_projection).
Proof.
  unfold project, project_with. intros H Hin.
  assert (In k (map fst (with_id orders_projection))) as Hk.
  { destruct (keys_apply_expressions _ _ _ _ _ H Hin) as [Hk|Hk]; [|exact Hk].
    destruct (keys_apply_projections _ _ _ _ Hk) as [[]|Hk']. exact Hk'. }
  destruct Hk as [<-|Hk]; auto.
Qed.

Lemma only_id_and_named_fields_witness :
  project shopee_record = Ok shopee_view /\
  ("_id" = "_id" \/ In "_id" (map fst orders_projection)).
Proof.
  split; [reflexivity|].
  refine (only_id_and_named_fields shopee_record shopee_view "_id" eq_refl _).
  left. reflexivity.
Defined.

(** Why the statements above set arrays aside.  A record that has an array
    of its own under the name of an output sub-object gets the computed
    fields in each element of that array; and an array met inside an
    element of a sequence is traversed by the field path, where plain
    access finds nothing. *)
Lemma own_array_is_rebuilt :
  project [ ("lazada_info", VArr [ VDoc [ ("note", VStr "x") ]; VDoc [] ]);
            ("order_lazada", VArr [ VDoc [ ("customer_first_name", VStr "A") ] ]) ]
  = Ok [ ("lazada_info", VArr [ VDoc [ ("customer_first_name", VStr "A") ];
                                VDoc [ ("customer_first_name", VStr "A") ] ]);
         ("shopee_info", VDoc [ ("shopee_user_id", VNull); ("shopee_user_name", VNull) ]);
         ("line_shopping_info", VDoc []) ].
Proof. reflexivity. Qed.

Lemma inner_array_is_traversed :
  exists out,
    project [ ("order_shopee",
                VArr [ VDoc [ ("raw_body", VArr [ VDoc [ ("buyer_user_id", VNum 1) ];
                                                  VDoc [ ("buyer_user_id", VNum 2) ] ]) ] ]) ]
    = Ok out /\
    sub_field ["shopee_info"; "shopee_user_id"] (VDoc out) = Some (VArr [ VNum 1; VNum 2 ]).
Proof. eexists. split; reflexivity. Qed.

(** A sequence stored as a single sub-document makes [$first] fail: the
    well-formedness of the sequences is needed for the projection to
    succeed. *)
Lemma sequence_as_document_fails :
  project [ ("order_lazada", VDoc [ ("customer_first_name", VStr "A") ]) ]
  = Error FirstArgumentNotArray.
Proof. reflexivity. Qed.

(** ** Claims about the scripts *)

Lemma project_all_whole (docs : list document) : project_all [] docs = Ok docs.
Proof. induction docs as [|d rest IH]; simpl; [reflexivity|]. now rewrite IH. Qed.

Lemma orders_playground_result
      (server_sort : list (string * Z) -> list document -> list document) (s : session) :
  fst (Orders.playground server_sort s)
  = project_all orders_projection (Orders.selection server_sort s).
Proof. reflexivity. Qed.

(** The order script leaves every collection of every database as it
    was. *)
Lemma orders_script_only_reads
      (server_sort : list (string * Z) -> list document -> list document) (s : session) :
  data (snd (Orders.playground server_sort s)) = data s.
Proof. reflexivity. Qed.

(** C10: the customer script leaves every collection of every database as
    it was, [crm_customer_profiles] among them. *)
Theorem customer_script_only_reads
        (server_sort : list (string * Z) -> list document -> list document) (s : session) :
  data (snd (Customers.playground server_sort s)) = data s /\
  collection (snd (Customers.playground server_sort s)) "crm_customer_profiles"
  = collection (Session "report_db" (data s)) "crm_customer_profiles".
Proof. split; reflexivity. Qed.

(** The helper would delete: the frame property of the script is not
    owed to a store that cannot change. *)
Lemma deleteOne_deletes :
  let s := Session "report_db"
             {[ "report_db" :=
                  {[ "crm_customer_profiles" :=
                       [ [ ("_id", VStr "44f4b399-84ab-548f-b801-52ca177bf266") ];
                         [ ("_id", VStr "another") ] ] ]} ]} in
  fst (Customers.deleteOne s) = 1%nat /\
  collection (snd (Customers.deleteOne s)) "crm_customer_profiles"
  = [ [ ("_id", VStr "another") ] ].
Proof. split; reflexivity. Qed.

(** The number the customer filter compares with. *)
Lemma order_id_literal : js_number 6208981112233112233 = 6208981112233112576.
Proof. reflexivity. Qed.

(** What the customer script returns: the profiles that match the filter,
    whole and in their stored order. *)
Lemma customer_script_result
      (server_sort : list (string * Z) -> list document -> list document) (s : session) :
  fst (Customers.playground server_sort s)
  = Ok (List.filter (query_matches Customers.customer_filter)
          (collection (Session "report_db" (data s)) "crm_customer_profiles")).
Proof.
  unfold Customers.playground, Customers.find, bind, use, run, selected. simpl.
  apply project_all_whole.
Qed.

(** On a profile whose [orders] is a sequence of sub-documents with a
    number for [order_id], the filter holds exactly when one of these
    numbers is 6208981112233112576. *)
Lemma customer_filter_matches (d : document) (items : list value) :
  get_field "orders" d = Some (VArr items) ->
  Forall (fun e => exists o n, e = VDoc o /\ get_field "order_id" o = Some (VNum n)) items ->
  query_matches Customers.customer_filter d = true <->
  exists o, In (VDoc o) items /\ get_field "order_id" o = Some (VNum 6208981112233112576).
Proof.
  intros Horders Hshape.
  unfold query_matches, Customers.customer_filter. rewrite order_id_literal.
  cbn [forallb fst snd]. rewrite andb_true_r.
  change (split_dots "orders.order_id" EmptyString) with ["orders"; "order_id"].
  cbn [path_matches]. rewrite Horders. rewrite existsb_exists. split.
  - intros (e & Hin & He).
    rewrite Forall_forall in Hshape. apply list_elem_of_In in Hin.
    destruct (Hshape e Hin) as (o & n & -> & Hn).
    rewrite Hn in He. cbn [leaf_matches equals] in He. apply Z.eqb_eq in He. subst n.
    exists o. split; [now apply list_elem_of_In|exact Hn].
  - intros (o & Hin & Ho). exists (VDoc o). split; [exact Hin|].
    rewrite Ho. reflexivity.
Qed.

(** C8: a profile one of whose orders has the id 6208981112233112233 is
    not returned: the number literal of the filter is a JavaScript number,
    which holds 6208981112233112576. *)
Theorem find_misses_the_order_id
        (server_sort : list (string * Z) -> list document -> list document) :
  fst (Customers.playground server_sort (one_profile 6208981112233112233)) = Ok [] /\
  fst (Customers.playground server_sort (one_profile 6208981112233112576))
  = Ok [ profile 6208981112233112576 ].
Proof. split; reflexivity. Qed.

(** ** Further properties of the projection *)

Lemma get_field_keys (f : string) (d : document) :
  get_field f d = None <-> ~ In f (keys d).
Proof.
  induction d as [|[k v] rest IH]; simpl; [tauto|].
  destruct (String.eqb k f) eqn:E.
  - apply String.eqb_eq in E. split; [discriminate|]. intros H. exfalso. auto.
  - apply String.eqb_neq in E. rewrite IH. tauto.
Qed.

Lemma set_field_fresh (f : string) (v : value) (d : document) :
  ~ In f (keys d) -> set_field f v d = (d ++ [(f, v)])%list.
Proof.
  induction d as [|[k w] rest IH]; simpl; intros H; [reflexivity|].
  destruct (String.eqb k f) eqn:E.
  - apply String.eqb_eq in E. exfalso. auto.
  - rewrite IH by tauto. reflexivity.
Qed.

(** With distinct field names in the record, the first pass leaves under
    each name the projection has the value the record has there. *)
Lemma get_apply_projections_distinct (spec : projection) (input acc : document) (f : string) :
  List.NoDup (keys input) ->
  get_field f (apply_projections spec input acc)
  = match rule_of spec f, get_field f input with
    | Some _, Some v => Some v
    | _, _ => get_field f acc
    end.
Proof.
  revert acc. induction input as [|[k v] rest IH]; intros acc Hnd.
  - simpl. now destruct (rule_of spec f).
  - inversion Hnd as [|? ? Hk Hnd']; subst. simpl.
    destruct (String.eqb k f) eqn:E.
    + apply String.eqb_eq in E. subst f.
      assert (get_field k rest = None) as Hrest by (now apply get_field_keys).
      assert (forall acc', get_field k (apply_projections spec rest acc') = get_field k acc')
        as IH'.
      { intros acc'. rewrite (IH _ Hnd'), Hrest. now destruct (rule_of spec k). }
      destruct (rule_of spec k) as [r|]; rewrite IH'.
      * apply get_set_same.
      * reflexivity.
    + apply String.eqb_neq in E.
      destruct (rule_of spec k) as [r|]; rewrite (IH _ Hnd'); [|reflexivity].
      destruct (rule_of spec f); [|now apply get_set_other].
      destruct (get_field f rest); [reflexivity|now apply get_set_other].
Qed.

Lemma info_names_nested (info : string) :
  In info info_names -> In (info, Nested (nested_fields info)) orders_projection.
Proof.
  intros H. simpl in H.
  repeat (destruct H as [<-|H]; [vm_compute; tauto|]). contradiction.
Qed.

(** X1: with distinct field names in the record, each field the projection
    includes (the 24 scalars, and [_id]) has in the output the value it has
    in the record, whatever that value is, and is absent from the output
    when the record has none. *)
Theorem included_fields_copied (record out : document) (name : string) :
  project record = Ok out ->
  List.NoDup (keys record) ->
  included name = true ->
  get_field name out = get_field name record.
Proof.
  unfold project, project_with, included. intros H Hnd Hinc.
  destruct (rule_of (with_id orders_projection) name) as [[|fields]|] eqn:Hr;
    try discriminate Hinc.
  rewrite (apply_expressions_other _ _ _ _ name H).
  - rewrite (get_apply_projections_distinct _ _ _ _ Hnd), Hr.
    now destruct (get_field name record).
  - change (nested_names (with_id orders_projection)) with info_names.
    intros Hin. simpl in Hin.
    repeat (destruct Hin as [<-|Hin]; [vm_compute in Hr; discriminate Hr|]).
    contradiction.
Qed.

Lemma included_fields_copied_witness :
  project full_record = Ok full_view /\
  get_field "grand_total" full_view = get_field "grand_total" full_record.
Proof.
  split; [reflexivity|].
  refine (included_fields_copied full_record full_view "grand_total" eq_refl _ eq_refl).
  apply distinct_NoDup. reflexivity.
Defined.

(** X2: every output has the three sub-objects, whatever the record; each
    is a sub-document unless the record holds an array under its name. *)
Theorem sub_objects_always_present (record out : document) (info : string) :
  project record = Ok out ->
  In info info_names ->
  exists v, get_field info out = Some v /\
            (holds_array info record = false -> exists sub, v = VDoc sub).
Proof.
  intros H Hin. pose proof (info_names_nested _ Hin) as Hrule.
  unfold project, project_with in H.
  destruct (apply_expressions_nested _ _ _ _ info (nested_fields info)
              orders_names_distinct H)
    as (v & _ & Hget); [right; exact Hrule|].
  exists v. split; [exact Hget|]. intros Harr.
  destruct (project_nested _ _ _ _ H Hrule Harr) as (sub & _ & Hsub).
  exists sub. congruence.
Qed.

Lemma sub_objects_always_present_witness :
  project full_record = Ok full_view /\
  exists v, get_field "shopee_info" full_view = Some v /\
            (holds_array "shopee_info" full_record = false -> exists sub, v = VDoc sub).
Proof.
  split; [reflexivity|].
  refine (sub_objects_always_present full_record full_view "shopee_info" eq_refl _).
  right. left. reflexivity.
Defined.

(** X3: a sub-object of the output has no field but the computed fields
    the projection names for it (two for [lazada_info], two for
    [shopee_info], eight for [line_shopping_info]), for a record that
    holds no array under the sub-object's name. *)
Theorem sub_object_fields_named (record out sub : document) (info k : string) :
  project record = Ok out ->
  In info info_names ->
  holds_array info record = false ->
  get_field info out = Some (VDoc sub) ->
  In k (keys sub) ->
  In k (map fst (nested_fields info)).
Proof.
  intros H Hin Harr Hget Hk.
  destruct (project_nested _ _ _ _ H (info_names_nested _ Hin) Harr) as (sub' & Hsub & Hget').
  assert (sub' = sub) as -> by congruence.
  destruct (keys_computed_fields _ _ _ _ _ Hsub Hk) as [[]|Hnamed]. exact Hnamed.
Qed.

Lemma sub_object_fields_named_witness :
  project full_record = Ok full_view /\
  In "customer_last_name" (map fst (nested_fields "lazada_info")).
Proof.
  split; [reflexivity|].
  refine (sub_object_fields_named full_record full_view _ "lazada_info" "customer_last_name"
            eq_refl _ eq_refl eq_refl _).
  - left. reflexivity.
  - right. left. reflexivity.
Defined.

Lemma keys_app (d1 d2 : document) : keys (d1 ++ d2)%list = (keys d1 ++ keys d2)%list.
Proof. apply map_app. Qed.

(** With distinct field names in the record, the first pass keeps the
    fields the projection names, in the order of the record. *)
Lemma apply_projections_filter (spec : projection) (input acc : document) :
  List.NoDup (keys input) ->
  (forall k, In k (keys input) -> ~ In k (keys acc)) ->
  apply_projections spec input acc
  = (acc ++ List.filter (fun kv => match rule_of spec (fst kv) with
                                   | Some _ => true
                                   | None => false
                                   end) input)%list.
Proof.
  revert acc. induction input as [|[k v] rest IH]; intros acc Hnd Hfresh.
  - simpl. now rewrite app_nil_r.
  - inversion Hnd as [|? ? Hk Hnd']; subst. simpl.
    destruct (rule_of spec k) as [r|].
    + rewrite set_field_fresh by (apply Hfresh; now left).
      rewrite IH; [now rewrite <- app_assoc|exact Hnd'|].
      intros k' Hk'. rewrite keys_app, in_app_iff. simpl.
      intros [Hacc|[->|[]]]; [|contradiction].
      apply (Hfresh k'); [now right|exact Hacc].
    + apply IH; [exact Hnd'|]. intros k' Hk'. apply Hfresh. now right.
Qed.

Lemma nested_rule_info (k : string) (fields : list (string * expr)) :
  rule_of (with_id orders_projection) k = Some (Nested fields) -> In k info_names.
Proof.
  intros H. apply rule_of_In in H.
  in_cases H; injection H as <- _; simpl; tauto.
Qed.

Lemma keys_filter (P : string * value -> bool) (d : document) (k : string) :
  In k (keys (List.filter P d)) -> In k (keys d).
Proof.
  unfold keys. rewrite !in_map_iff. intros ((k', v) & <- & Hin).
  apply filter_In in Hin as [Hin _]. exists (k', v). auto.
Qed.

(** X4: for a record with distinct field names and no field of its own
    named like a sub-object, the output is the included fields of the
    record, in the order of the record, followed by [lazada_info],
    [shopee_info] and [line_shopping_info] in this order, each the
    sub-document of its computed fields. *)
Theorem output_layout (record out : document) :
  project record = Ok out ->
  List.NoDup (keys record) ->
  (forall info, In info info_names -> ~ In info (keys record)) ->
  exists lazada shopee line,
    computed_fields (nested_fields "lazada_info") record [] = Ok lazada /\
    computed_fields (nested_fields "shopee_info") record [] = Ok shopee /\
    computed_fields (nested_fields "line_shopping_info") record [] = Ok line /\
    out = (List.filter (fun kv => included (fst kv)) record
           ++ [ ("lazada_info", VDoc lazada);
                ("shopee_info", VDoc shopee);
                ("line_shopping_info", VDoc line) ])%list.
Proof.
  unfold project, project_with. intros H Hnd Hown.
  rewrite apply_projections_filter in H; [|exact Hnd|intros k _ []].
  rewrite app_nil_l in H.
  rewrite (filter_ext_in _ (fun kv => included (fst kv))) in H.
  2:{ intros [k v] Hin. unfold included. cbn [fst].
      destruct (rule_of (with_id orders_projection) k) as [[|fields]|] eqn:Hr; try reflexivity.
      exfalso. apply (Hown k (nested_rule_info _ _ Hr)).
      apply (in_map fst) in Hin. exact Hin. }
  set (kept := List.filter (fun kv => included (fst kv)) record) in *.
  assert (forall info, In info info_names -> ~ In info (keys kept)) as Hkept.
  { intros info Hin Hk. apply (Hown info Hin). exact (keys_filter _ _ _ Hk). }
  change (with_id orders_projection) with (("_id", Include) :: orders_projection) in H.
  unfold orders_projection in H. cbn [apply_expressions] in H.
  fold (nested_fields "lazada_info") in H.
  assert (get_field "lazada_info" kept = None) as E1.
  { apply get_field_keys, Hkept. simpl. tauto. }
  rewrite E1 in H.
  change (computed_fields _ record [])
    with (computed_fields (nested_fields "lazada_info") record []) in H at 1.
  destruct (computed_fields (nested_fields "lazada_info") record []) as [lazada|];
    [|discriminate H].
  cbn [rbind] in H.
  rewrite set_field_fresh in H by (apply Hkept; simpl; tauto).
  assert (get_field "shopee_info" (kept ++ [("lazada_info", VDoc lazada)])%list = None) as E2.
  { apply get_field_keys. rewrite keys_app, in_app_iff. simpl.
    intros [Hk|[Hk|[]]]; [|discriminate Hk]. apply (Hkept "shopee_info"); simpl; tauto. }
  rewrite E2 in H.
  change (computed_fields _ record [])
    with (computed_fields (nested_fields "shopee_info") record []) in H at 1.
  destruct (computed_fields (nested_fields "shopee_info") record []) as [shopee|];
    [|discriminate H].
  cbn [rbind] in H.
  rewrite set_field_fresh in H.
  2:{ rewrite keys_app, in_app_iff. simpl.
      intros [Hk|[Hk|[]]]; [|discriminate Hk]. apply (Hkept "shopee_info"); simpl; tauto. }
  assert (get_field "line_shopping_info"
            ((kept ++ [("lazada_info", VDoc lazada)]) ++ [("shopee_info", VDoc shopee)])%list
          = None) as E3.
  { apply get_field_keys. rewrite !keys_app, !in_app_iff. simpl.
    intros [[Hk|[Hk|[]]]|[Hk|[]]]; try discriminate Hk.
    apply (Hkept "line_shopping_info"); simpl; tauto. }
  rewrite E3 in H.
  change (computed_fields _ record [])
    with (computed_fields (nested_fields "line_shopping_info") record []) in H at 1.
  destruct (computed_fields (nested_fields "line_shopping_info") record []) as [line|];
    [|discriminate H].
  cbn [rbind] in H.
  rewrite set_field_fresh in H.
  2:{ rewrite !keys_app, !in_app_iff. simpl.
      intros [[Hk|[Hk|[]]]|[Hk|[]]]; try discriminate Hk.
      apply (Hkept "line_shopping_info"); simpl; tauto. }
  injection H as <-. exists lazada, shopee, line.
  repeat split. now rewrite <- !app_assoc.
Qed.

Lemma output_layout_witness :
  exists lazada shopee line,
    computed_fields (nested_fields "lazada_info") full_record [] = Ok lazada /\
    computed_fields (nested_fields "shopee_info") full_record [] = Ok shopee /\
    computed_fields (nested_fields "line_shopping_info") full_record [] = Ok line /\
    full_view = (List.filter (fun kv => included (fst kv)) full_record
                 ++ [ ("lazada_info", VDoc lazada);
                      ("shopee_info", VDoc shopee);
                      ("line_shopping_info", VDoc line) ])%list.
Proof.
  refine (output_layout full_record full_view eq_refl
            (distinct_NoDup (keys full_record) eq_refl) _).
  intros info Hin Hk. simpl in Hin.
  repeat (destruct Hin as [<-|Hin];
          [simpl in Hk; repeat (destruct Hk as [Hk|Hk]; [discriminate Hk|]); contradiction|]).
  contradiction.
Defined.

(** ** Errors of the projection *)

Lemma computed_fields_error (fields : list (string * expr)) (root acc : document)
      (name : string) (e : expr) (x : error) :
  In (name, e) fields ->
  eval e root = Error x ->
  exists x', computed_fields fields root acc = Error x'.
Proof.
  revert acc. induction fields as [|[f e'] rest IH]; simpl; intros acc Hin He; [contradiction|].
  destruct Hin as [Heq|Hin].
  - injection Heq as -> ->. rewrite He. simpl. eauto.
  - destruct (eval e' root) as [[v|]|x']; simpl; eauto.
Qed.

(** The second pass fails as soon as a nested projection has a failing
    expression, when no place of a nested projection holds an array. *)
Lemma apply_expressions_error (spec : projection) (root out : document)
      (info : string) (fields : list (string * expr)) (x : error) :
  List.NoDup (map fst spec) ->
  In (info, Nested fields) spec ->
  (forall i, In i (nested_names spec) -> plain_slot out i) ->
  computed_fields fields root [] = Error x ->
  exists x', apply_expressions spec root out = Error x'.
Proof.
  revert out. induction spec as [|[k r] rest IH]; simpl; intros out Hnd Hin Hplain Hfail;
    [contradiction|].
  inversion Hnd as [|? ? Hk Hnd']; subst.
  destruct Hin as [Heq|Hin].
  - injection Heq as -> ->.
    assert (plain_slot out info) as Hslot by (apply Hplain; simpl; auto).
    unfold plain_slot in Hslot.
    destruct (get_field info out) as [old|].
    + rewrite apply_nested_not_array by exact Hslot. rewrite Hfail. simpl. eauto.
    + rewrite Hfail. simpl. eauto.
  - destruct r as [|fs].
    + apply IH; auto.
    + match goal with |- exists _, rbind ?m _ = _ => destruct m as [v|x'] end; simpl; [|eauto].
      apply IH; auto.
      intros i Hi. unfold plain_slot.
      assert (k <> i) as Hne.
      { intros ->. apply Hk. unfold nested_names in Hi. rewrite in_flat_map in Hi.
        destruct Hi as ([k' r'] & Hin' & Hi). destruct r'; simpl in Hi; [contradiction|].
        destruct Hi as [<-|[]]. apply (in_map fst) in Hin'. exact Hin'. }
      rewrite get_set_other by exact Hne. apply Hplain. simpl. auto.
Qed.

(** X5: the projection fails when a source of [$first] is not a sequence
    but a chain of sub-documents ending in a value that is neither null
    nor an array (a string, a number, a sub-document): for each of the
    four [$first] fields, for a record that holds no array under the name
    of a sub-object. *)
Theorem first_of_scalar_fails
        (record : document) (info name seq : string) (path : list string) (v : value) :
  first_of_rule info name seq path ->
  (forall i, In i info_names -> holds_array i record = false) ->
  meets_array (seq :: path) (VDoc record) = false ->
  sub_field (seq :: path) (VDoc record) = Some v ->
  first_accepts v = false ->
  project record = Error FirstArgumentNotArray.
Proof.
  intros Hrule Harr Hplain Hv Hnot.
  destruct Hrule as (fields & Hinfo & Hname).
  assert (eval (First (FieldPath (seq :: path))) record = Error FirstArgumentNotArray) as He.
  { cbn [eval rbind]. rewrite field_path_plain by (assumption || discriminate).
    rewrite Hv. now destruct v. }
  destruct (computed_fields_error _ record [] _ _ _ Hname He) as [x Hx].
  destruct (apply_expressions_error (with_id orders_projection) record
              (apply_projections (with_id orders_projection) record [])
              info fields x orders_names_distinct) as [x' Hx'].
  - right. exact Hinfo.
  - intros i Hi. apply apply_projections_no_array, Harr. exact Hi.
  - exact Hx.
  - unfold project, project_with. rewrite Hx'. now destruct x'.
Qed.

Lemma first_of_scalar_fails_witness :
  project single_shopee_record = Error FirstArgumentNotArray.
Proof.
  refine (first_of_scalar_fails single_shopee_record
            "shopee_info" "shopee_user_name" "order_shopee" ["raw_body"; "buyer_username"]
            (VStr "somchai") shopee_user_name_rule _ eq_refl eq_refl eq_refl).
  intros i Hi. simpl in Hi.
  repeat (destruct Hi as [<-|Hi]; [reflexivity|]). contradiction.
Defined.

(** ** What the projection does not read *)

Lemma get_field_drop (f k : string) (v : value) (pre post : document) :
  f <> k ->
  get_field f (pre ++ (k, v) :: post)%list = get_field f (pre ++ post)%list.
Proof.
  intros Hne. induction pre as [|[k' w] pre IH]; simpl.
  - destruct (String.eqb k f) eqn:E; [|reflexivity].
    apply String.eqb_eq in E. congruence.
  - now rewrite IH.
Qed.

Lemma apply_projections_drop (spec : projection) (k : string) (v : value)
      (pre post acc : document) :
  rule_of spec k = None ->
  apply_projections spec (pre ++ (k, v) :: post)%list acc
  = apply_projections spec (pre ++ post)%list acc.
Proof.
  intros Hk. revert acc. induction pre as [|[k' w] pre IH]; simpl; intros acc.
  - now rewrite Hk.
  - destruct (rule_of spec k'); apply IH.
Qed.

Lemma field_path_same_head (f : string) (path : list string) (r1 r2 : document) :
  get_field f r1 = get_field f r2 ->
  field_path (f :: path) r1 = field_path (f :: path) r2.
Proof. intros H. destruct path; simpl; now rewrite H. Qed.

(** Every expression of the projection starts from one of the three
    source fields. *)
Lemma orders_expression_shape (info name : string) (fields : list (string * expr)) (e : expr) :
  In (info, Nested fields) (with_id orders_projection) ->
  In (name, e) fields ->
  exists seq path,
    In seq source_names /\
    (e = FieldPath (seq :: path) \/ e = First (FieldPath (seq :: path))).
Proof.
  intros Hinfo Hname.
  in_cases Hinfo; injection Hinfo as <- <-;
    in_cases Hname; injection Hname as <- <-;
    do 2 eexists; (split; [|first [left; reflexivity|right; reflexivity]]);
    simpl; tauto.
Qed.

Lemma computed_fields_ext (fields : list (string * expr)) (r1 r2 acc : document) :
  (forall name e, In (name, e) fields -> eval e r1 = eval e r2) ->
  computed_fields fields r1 acc = computed_fields fields r2 acc.
Proof.
  revert acc. induction fields as [|[f e] rest IH]; simpl; intros acc H; [reflexivity|].
  rewrite (H f e) by auto.
  destruct (eval e r2) as [[x|]|]; simpl; try reflexivity; apply IH; intros; eauto.
Qed.

Lemma apply_nested_ext (fields : list (string * expr)) (r1 r2 : document) (v : value) :
  (forall name e, In (name, e) fields -> eval e r1 = eval e r2) ->
  apply_nested fields r1 v = apply_nested fields r2 v.
Proof.
  intros H.
  induction v as [ | |b|n|s|t r|items IH|fs _] using value_ind;
    try (simpl; now rewrite (computed_fields_ext fields r1 r2 [] H)).
  simpl. f_equal.
  induction IH as [|x xs Hx _ IHxs]; [reflexivity|].
  now rewrite Hx, IHxs.
Qed.

Lemma apply_expressions_ext (spec : projection) (r1 r2 out : document) :
  (forall info fields name e,
      In (info, Nested fields) spec -> In (name, e) fields -> eval e r1 = eval e r2) ->
  apply_expressions spec r1 out = apply_expressions spec r2 out.
Proof.
  revert out. induction spec as [|[k [|fields]] rest IH]; simpl; intros out H.
  - reflexivity.
  - apply IH. intros; eauto.
  - assert (forall name e, In (name, e) fields -> eval e r1 = eval e r2) as Hf
        by (intros; eauto).
    rewrite (computed_fields_ext fields r1 r2 [] Hf).
    destruct (get_field k out) as [old|].
    + rewrite (apply_nested_ext fields r1 r2 old Hf).
      destruct (apply_nested fields r2 old); simpl; [|reflexivity].
      apply IH. intros; eauto.
    + destruct (computed_fields fields r2 []); simpl; [|reflexivity].
      apply IH. intros; eauto.
Qed.

(** X6: a field that the projection neither names nor reads (such as
    [full_order_code]) has no influence: with or without it, wherever it
    stands in the record and whatever it holds, the output is the same, and
    so is the failure. *)
Theorem unread_field_ignored (pre post : document) (k : string) (v : value) :
  rule_of (with_id orders_projection) k = None ->
  ~ In k source_names ->
  project (pre ++ (k, v) :: post)%list = project (pre ++ post)%list.
Proof.
  intros Hrule Hsource. unfold project, project_with.
  rewrite (apply_projections_drop _ _ _ _ _ _ Hrule).
  apply apply_expressions_ext.
  intros info fields name e Hinfo Hname.
  destruct (orders_expression_shape _ _ _ _ Hinfo Hname) as (seq & path & Hseq & [-> | ->]);
    cbn [eval rbind];
    rewrite (field_path_same_head seq path (pre ++ (k, v) :: post)%list (pre ++ post)%list);
    try reflexivity;
    apply get_field_drop; intros ->; contradiction.
Qed.

Lemma unread_field_ignored_witness :
  project full_record
  = project [ ("_id", VNum 2);
              ("provider_id", VNum 3);
              ("grand_total", VNum 590);
              ("order_from", VNum 31);
              ("order_lazada",
                VArr [ VDoc [ ("customer_first_name", VStr "A");
                              ("customer_last_name", VStr "B") ] ]);
              ("internal_note", VStr "call before delivery") ].
Proof.
  refine (unread_field_ignored [ ("_id", VNum 2); ("provider_id", VNum 3) ] _
            "full_order_code" (VStr "WN0303255") eq_refl _).
  simpl. intros [H|[H|[H|[]]]]; discriminate H.
Defined.

(** ** The projection is a function of what it reads *)

Lemma get_field_footprint (f : string) (record : document) :
  read_by_projection f = true ->
  get_field f (footprint record) = get_field f record.
Proof.
  intros Hf. unfold footprint.
  induction record as [|[k v] rest IH]; [reflexivity|].
  cbn [List.filter fst]. destruct (read_by_projection k) eqn:Hk.
  - cbn [get_field]. now rewrite IH.
  - cbn [get_field]. destruct (String.eqb k f) eqn:E; [|exact IH].
    apply String.eqb_eq in E. congruence.
Qed.

Lemma apply_projections_footprint (record acc : document) :
  apply_projections (with_id orders_projection) (footprint record) acc
  = apply_projections (with_id orders_projection) record acc.
Proof.
  unfold footprint. revert acc.
  induction record as [|[k v] rest IH]; intros acc; [reflexivity|].
  cbn [List.filter fst]. unfold read_by_projection at 1.
  destruct (rule_of (with_id orders_projection) k) as [r|] eqn:Hr.
  - cbn [apply_projections]. rewrite Hr. apply IH.
  - cbn [apply_projections]. rewrite Hr.
    destruct (existsb (String.eqb k) source_names); [|apply IH].
    cbn [apply_projections]. rewrite Hr. apply IH.
Qed.

Lemma source_names_read (seq : string) :
  In seq source_names -> read_by_projection seq = true.
Proof.
  intros H. simpl in H.
  repeat (destruct H as [<-|H]; [reflexivity|]). contradiction.
Qed.

(** The projection sees of a record only what it names or reads. *)
Lemma project_footprint (record : document) :
  project (footprint record) = project record.
Proof.
  unfold project, project_with. rewrite apply_projections_footprint.
  apply apply_expressions_ext.
  intros info fields name e Hinfo Hname.
  destruct (orders_expression_shape _ _ _ _ Hinfo Hname) as (seq & path & Hseq & [-> | ->]);
    cbn [eval rbind];
    rewrite (field_path_same_head seq path (footprint record) record);
    try reflexivity;
    apply get_field_footprint, source_names_read, Hseq.
Qed.

(** C6: the outcome of the projection, a view or a failure, is determined
    by the record, and by no more of it than the fields the projection
    names or reads, taken in the order of the record: invocations on
    records that have the same such fields, so in particular two
    invocations on the same unmodified record, yield identical outputs. *)
Theorem projection_deterministic (r1 r2 : document) :
  footprint r1 = footprint r2 ->
  project r1 = project r2.
Proof.
  intros H. rewrite <- (project_footprint r1), <- (project_footprint r2). now rewrite H.
Qed.

Lemma projection_deterministic_witness :
  footprint full_record = footprint relabelled_record /\
  project full_record = Ok full_view /\
  project relabelled_record = Ok full_view.
Proof.
  split; [reflexivity|]. split; [reflexivity|].
  rewrite <- (projection_deterministic full_record relabelled_record eq_refl).
  reflexivity.
Defined.

Lemma info_expression_source (info name : string) (fields : list (string * expr)) (e : expr) :
  In (info, Nested fields) orders_projection ->
  In (name, e) fields ->
  exists path,
    e = FieldPath (source_of info :: path) \/ e = First (FieldPath (source_of info :: path)).
Proof.
  intros Hinfo Hname.
  in_cases Hinfo; injection Hinfo as <- <-;
    in_cases Hname; injection Hname as <- <-;
    eexists; first [left; reflexivity|right; reflexivity].
Qed.

(** X7: a sub-object of the output depends on the record only through the
    field it is computed from ([lazada_info] on [order_lazada],
    [shopee_info] on [order_shopee], [line_shopping_info] on
    [order_line_shopping]): two records that agree on that field get the
    same sub-object, whatever else they hold (neither holding an array
    under the sub-object's name). *)
Theorem sub_object_depends_on_its_source (r1 r2 out1 out2 : document) (info : string) :
  project r1 = Ok out1 ->
  project r2 = Ok out2 ->
  In info info_names ->
  holds_array info r1 = false ->
  holds_array info r2 = false ->
  get_field (source_of info) r1 = get_field (source_of info) r2 ->
  get_field info out1 = get_field info out2.
Proof.
  intros H1 H2 Hin Harr1 Harr2 Hsame.
  pose proof (info_names_nested _ Hin) as Hrule.
  destruct (project_nested _ _ _ _ H1 Hrule Harr1) as (sub1 & Hsub1 & ->).
  destruct (project_nested _ _ _ _ H2 Hrule Harr2) as (sub2 & Hsub2 & ->).
  rewrite (computed_fields_ext _ r1 r2) in Hsub1; [congruence|].
  intros name e Hname.
  destruct (info_expression_source _ _ _ _ Hrule Hname) as (path & [-> | ->]);
    cbn [eval rbind]; now rewrite (field_path_same_head _ path r1 r2 Hsame).
Qed.

Lemma sub_object_depends_on_its_source_witness :
  get_field "lazada_info" full_view = get_field "lazada_info" lazada_only_view.
Proof.
  refine (sub_object_depends_on_its_source full_record lazada_only_record
            full_view lazada_only_view "lazada_info"
            eq_refl eq_refl _ eq_refl eq_refl eq_refl).
  left. reflexivity.
Defined.

(** ** Further properties of the order script *)

Lemma project_all_length (p : projection) (docs views : list document) :
  project_all p docs = Ok views -> length views = length docs.
Proof.
  revert views. induction docs as [|d rest IH]; simpl; intros views H.
  - now injection H as <-.
  - destruct (project_document p d) as [d'|]; simpl in H; [|discriminate].
    destruct (project_all p rest) as [rest'|]; simpl in H; [|discriminate].
    injection H as <-. simpl. now rewrite (IH rest').
Qed.

Lemma project_all_In (p : projection) (docs views : list document) (view : document) :
  project_all p docs = Ok views ->
  In view views ->
  exists d, In d docs /\ project_document p d = Ok view.
Proof.
  revert views. induction docs as [|d rest IH]; simpl; intros views H Hin.
  - injection H as <-. contradiction.
  - destruct (project_document p d) as [d'|] eqn:Hd; simpl in H; [|discriminate].
    destruct (project_all p rest) as [rest'|]; simpl in H; [|discriminate].
    injection H as <-. destruct Hin as [<-|Hin]; [eauto|].
    destruct (IH rest' eq_refl Hin) as (d0 & Hd0 & Hview). eauto.
Qed.

Lemma take_limit_In (n : nat) (docs : list document) (d : document) :
  In d (take_limit n docs) -> In d docs.
Proof.
  destruct n as [|n]; [auto|]. unfold take_limit.
  generalize (S n) as m. induction docs as [|x xs IH]; intros [|m]; simpl; try tauto.
  intros [H|H]; eauto.
Qed.

Lemma equals_string (code : string) (x : value) :
  equals (CStr code) x = true <-> x = VStr code.
Proof.
  destruct x; simpl; split; try discriminate.
  - intros H. apply String.eqb_eq in H. now subst.
  - intros [= <-]. apply String.eqb_refl.
Qed.

Lemma leaf_matches_string (code : string) (w : value) :
  leaf_matches (CStr code) w = true <->
  w = VStr code \/ exists items, w = VArr items /\ In (VStr code) items.
Proof.
  destruct w; cbn [leaf_matches];
    try (rewrite equals_string; split;
         [auto|intros [H|(items & H & _)]; [exact H|discriminate H]]).
  rewrite existsb_exists. split.
  - intros (x & Hin & Hx). apply equals_string in Hx. subst x. right. eauto.
  - intros [H|(items' & [= <-] & Hin)]; [discriminate H|].
    exists (VStr code). split; [exact Hin|now apply equals_string].
Qed.

Lemma orders_filter_matches (d : document) :
  query_matches Orders.orders_filter d = true <-> has_order_code d.
Proof.
  unfold query_matches, Orders.orders_filter, has_order_code.
  cbn [forallb fst snd]. rewrite andb_true_r.
  change (split_dots "full_order_code" EmptyString) with ["full_order_code"].
  cbn [path_matches].
  destruct (get_field "full_order_code" d) as [w|].
  - rewrite leaf_matches_string. split.
    + intros [->|(items & -> & Hin)]; eauto.
    + intros [[= ->]|(items & [= ->] & Hin)]; eauto.
  - split; [discriminate|]. intros [H|(items & H & _)]; discriminate H.
Qed.

Lemma orders_selection_unfold
      (server_sort : list (string * Z) -> list document -> list document) (s : session) :
  Orders.selection server_sort s
  = take_limit 1 (server_sort [("created_date", -1)]
                    (List.filter (query_matches Orders.orders_filter) (stored_orders s))).
Proof. reflexivity. Qed.

Lemma orders_selection_spec
      (server_sort : list (string * Z) -> list document -> list document)
      (s : session) (d : document) :
  sort_invents_nothing server_sort ->
  In d (Orders.selection server_sort s) ->
  In d (stored_orders s) /\ has_order_code d.
Proof.
  intros Hsort Hin. rewrite orders_selection_unfold in Hin.
  apply take_limit_In in Hin. apply Hsort in Hin. apply filter_In in Hin as [Hin Hmatch].
  split; [exact Hin|]. now apply orders_filter_matches.
Qed.

(** X8: the order script returns at most one view, however many orders
    have the code and however the server sorts. *)
Theorem orders_script_at_most_one
        (server_sort : list (string * Z) -> list document -> list document)
        (s : session) (views : list document) :
  fst (Orders.playground server_sort s) = Ok views ->
  (length views <= 1)%nat.
Proof.
  rewrite orders_playground_result. intros H.
  rewrite (project_all_length _ _ _ H), orders_selection_unfold.
  apply firstn_le_length.
Qed.

Lemma orders_script_at_most_one_witness :
  length (List.filter (query_matches Orders.orders_filter) (stored_orders tied_orders_session))
  = 2%nat /\
  exists views,
    fst (Orders.playground stored_order tied_orders_session) = Ok views /\
    (length views <= 1)%nat.
Proof.
  split; [reflexivity|]. eexists. split; [reflexivity|].
  exact (orders_script_at_most_one stored_order tied_orders_session _ eq_refl).
Defined.

(** Which of several orders with the code and the same [created_date] is
    shown is the server's choice: what is determined is the view of a
    record, not the record selected. *)
Lemma tied_orders_depend_on_sort :
  fst (Orders.playground stored_order tied_orders_session)
  <> fst (Orders.playground reversed_order tied_orders_session).
Proof. vm_compute. discriminate. Qed.

(** X9: a view the order script returns is the projection of an order
    stored in [btw_orders] of [OmniService] whose [full_order_code] is
    "WN0303255" (or an array that has it), provided the server's sort
    returns no document it was not given. *)
Theorem orders_script_views_from_filter
        (server_sort : list (string * Z) -> list document -> list document)
        (s : session) (views : list document) (view : document) :
  sort_invents_nothing server_sort ->
  fst (Orders.playground server_sort s) = Ok views ->
  In view views ->
  exists record,
    In record (stored_orders s) /\ has_order_code record /\ project record = Ok view.
Proof.
  intros Hsort H Hin. rewrite orders_playground_result in H.
  destruct (project_all_In _ _ _ _ H Hin) as (record & Hsel & Hview).
  destruct (orders_selection_spec _ _ _ Hsort Hsel) as [Hstored Hcode].
  exists record. auto.
Qed.

Lemma stored_order_invents_nothing : sort_invents_nothing stored_order.
Proof. intros spec docs d H. exact H. Defined.

Lemma orders_script_views_from_filter_witness :
  exists record,
    In record (stored_orders orders_session) /\ has_order_code record /\
    project record
    = Ok (("_id", VNum 2) :: ("grand_total", VNum 590)
          :: [ ("lazada_info", VDoc [ ("customer_first_name", VStr "A");
                                      ("customer_last_name", VStr "B") ]);
               ("shopee_info", VDoc []);
               ("line_shopping_info", VDoc []) ]).
Proof.
  refine (orders_script_views_from_filter stored_order orders_session _ _
            stored_order_invents_nothing eq_refl _).
  left. reflexivity.
Defined.

(** X10: when no stored order has the code (the collection may be empty or
    missing), the order script returns the empty list and no error,
    provided the server's sort returns no document it was not given. *)
Theorem orders_script_no_match
        (server_sort : list (string * Z) -> list document -> list document) (s : session) :
  sort_invents_nothing server_sort ->
  (forall record, In record (stored_orders s) -> ~ has_order_code record) ->
  fst (Orders.playground server_sort s) = Ok [].
Proof.
  intros Hsort Hnone. rewrite orders_playground_result.
  assert (Orders.selection server_sort s = []) as ->; [|reflexivity].
  destruct (Orders.selection server_sort s) as [|d rest] eqn:E; [reflexivity|].
  destruct (orders_selection_spec server_sort s d Hsort) as [Hstored Hcode].
  - rewrite E. now left.
  - destruct (Hnone d Hstored Hcode).
Qed.

Lemma orders_script_no_match_witness :
  length (stored_orders other_orders_session) = 2%nat /\
  fst (Orders.playground stored_order other_orders_session) = Ok [].
Proof.
  split; [reflexivity|].
  refine (orders_script_no_match stored_order other_orders_session
            stored_order_invents_nothing _).
  intros record H. vm_compute in H.
  destruct H as [<-|[<-|[]]]; intros [Hcode|(items & Hcode & _)]; discriminate Hcode.
Defined.

Lemma take_limit_nonempty (docs : list document) (d : document) :
  In d docs -> length (take_limit 1 docs) = 1%nat.
Proof. destruct docs; [contradiction|reflexivity]. Qed.

(** X11: when some stored order has the code and the projection of the
    selected order succeeds, the order script returns exactly one view,
    provided the server's sort returns every document it was given. *)
Theorem orders_script_exactly_one
        (server_sort : list (string * Z) -> list document -> list document)
        (s : session) (record : document) (views : list document) :
  sort_loses_nothing server_sort ->
  In record (stored_orders s) ->
  has_order_code record ->
  fst (Orders.playground server_sort s) = Ok views ->
  length views = 1%nat.
Proof.
  intros Hsort Hstored Hcode H. rewrite orders_playground_result in H.
  rewrite (project_all_length _ _ _ H), orders_selection_unfold.
  apply (take_limit_nonempty _ record). apply Hsort.
  apply filter_In. split; [exact Hstored|]. now apply orders_filter_matches.
Qed.

Lemma stored_order_loses_nothing : sort_loses_nothing stored_order.
Proof. intros spec docs d H. exact H. Defined.

Lemma orders_script_exactly_one_witness :
  length [ ("_id", VNum 2) :: ("grand_total", VNum 590)
           :: [ ("lazada_info", VDoc [ ("customer_first_name", VStr "A");
                                       ("customer_last_name", VStr "B") ]);
                ("shopee_info", VDoc []);
                ("line_shopping_info", VDoc []) ] ] = 1%nat.
Proof.
  refine (orders_script_exactly_one stored_order orders_session
            (("_id", VNum 2) :: ("grand_total", VNum 590) :: scenario_record) _
            stored_order_loses_nothing _ _ eq_refl).
  - right. left. reflexivity.
  - left. reflexivity.
Defined.

(** ** Further properties of the customer script *)

Lemma has_rounded_order_matches (p : document) :
  well_shaped_profile p ->
  query_matches Customers.customer_filter p = has_rounded_order p.
Proof.
  intros (items & Horders & Hshape).
  unfold query_matches, Customers.customer_filter, has_rounded_order.
  rewrite order_id_literal. cbn [forallb fst snd]. rewrite andb_true_r.
  change (split_dots "orders.order_id" EmptyString) with ["orders"; "order_id"].
  cbn [path_matches]. rewrite Horders. clear Horders.
  induction Hshape as [|e rest (o & n & -> & Hn) _ IH]; [reflexivity|].
  cbn [existsb]. rewrite IH, Hn. cbn [leaf_matches equals].
  now rewrite Z.eqb_sym.
Qed.

(** X12: on a collection of well-shaped profiles [find] never fails and
    returns, whole and in their stored order, exactly the profiles one of
    whose orders has the [order_id] 6208981112233112576, the number the
    literal of the filter holds. *)
Theorem find_returns_matching_profiles
        (server_sort : list (string * Z) -> list document -> list document) (s : session) :
  Forall well_shaped_profile (stored_profiles s) ->
  fst (Customers.playground server_sort s)
  = Ok (List.filter has_rounded_order (stored_profiles s)).
Proof.
  intros Hshape. rewrite customer_script_result. f_equal.
  apply filter_ext_in. intros p Hin.
  apply has_rounded_order_matches.
  rewrite Forall_forall in Hshape. apply Hshape. now apply list_elem_of_In.
Qed.

Lemma two_profiles_well_shaped : Forall well_shaped_profile (stored_profiles two_profiles).
Proof.
  change (stored_profiles two_profiles)
    with [ [ ("_id", VStr "p0");
             ("orders", VArr [ VDoc [ ("order_id", VNum 6208981112233112576) ] ]) ];
           [ ("_id", VStr "44f4b399-84ab-548f-b801-52ca177bf266");
             ("orders", VArr [ VDoc [ ("order_id", VNum 6208981112233112576) ];
                               VDoc [ ("order_id", VNum 17) ] ]) ];
           [ ("_id", VStr "p2"); ("orders", VArr []) ] ].
  repeat first [ apply List.Forall_nil | apply List.Forall_cons
               | eexists | split | reflexivity ].
Defined.

Lemma find_returns_matching_profiles_witness :
  fst (Customers.playground stored_order two_profiles)
  = Ok (List.filter has_rounded_order (stored_profiles two_profiles)).
Proof.
  exact (find_returns_matching_profiles stored_order two_profiles two_profiles_well_shaped).
Defined.

(** *** The delete-by-id helper *)

Lemma collection_put_same (name : string) (docs : list document) (s : session) :
  collection (put_collection name docs s) name = docs.
Proof.
  unfold collection, put_collection. simpl.
  rewrite lookup_insert_eq. simpl. now rewrite lookup_insert_eq.
Qed.

Lemma lookup_put_other (name name' db : string) (docs : list document) (s : session) :
  db <> current_db s \/ name' <> name ->
  data (put_collection name docs s) !! db ≫= (fun colls => colls !! name')
  = data s !! db ≫= (fun colls => colls !! name').
Proof.
  intros Hother. unfold put_collection. simpl.
  destruct (decide (db = current_db s)) as [->|Hdb].
  - destruct Hother as [Hne|Hne]; [contradiction|].
    rewrite lookup_insert_eq. simpl. rewrite lookup_insert_ne by congruence.
    destruct (data s !! current_db s); simpl; [reflexivity|apply lookup_empty].
  - now rewrite lookup_insert_ne by congruence.
Qed.

Lemma deleteOne_unfold (s : session) :
  Customers.deleteOne s
  = match remove_first delete_filter (collection s "crm_customer_profiles") with
    | Some docs => (1%nat, put_collection "crm_customer_profiles" docs s)
    | None => (0%nat, s)
    end.
Proof. reflexivity. Qed.

Lemma remove_first_split (q : query) (pre post : list document) (d : document) :
  Forall (fun x => query_matches q x = false) pre ->
  query_matches q d = true ->
  remove_first q (pre ++ d :: post)%list = Some (pre ++ post)%list.
Proof.
  intros Hpre Hd. induction Hpre as [|x pre Hx _ IH]; simpl.
  - now rewrite Hd.
  - now rewrite Hx, IH.
Qed.

Lemma remove_first_none (q : query) (docs : list document) :
  Forall (fun x => query_matches q x = false) docs ->
  remove_first q docs = None.
Proof.
  intros H. induction H as [|x rest Hx _ IH]; simpl; [reflexivity|].
  now rewrite Hx, IH.
Qed.

(** What is removed is the first match, and the rest stays in order. *)
Lemma remove_first_inv (q : query) (docs docs' : list document) :
  remove_first q docs = Some docs' ->
  exists pre d post,
    docs = (pre ++ d :: post)%list /\ docs' = (pre ++ post)%list /\
    Forall (fun x => query_matches q x = false) pre /\ query_matches q d = true.
Proof.
  revert docs'. induction docs as [|x rest IH]; simpl; intros docs' H; [discriminate|].
  destruct (query_matches q x) eqn:Hx.
  - injection H as <-. exists [], x, rest. repeat split; auto.
  - destruct (remove_first q rest) as [rest'|]; simpl in H; [|discriminate].
    injection H as <-.
    destruct (IH rest' eq_refl) as (pre & d & post & -> & -> & Hpre & Hd).
    exists (x :: pre), d, post. repeat split; auto.
Qed.

(** The documents [deleteOne] picks: those whose [_id] is the string
    written in it (or an array that has it). *)
Lemma targeted_by_id (d : document) :
  targeted d = true <->
  get_field "_id" d = Some (VStr "44f4b399-84ab-548f-b801-52ca177bf266") \/
  exists items, get_field "_id" d = Some (VArr items) /\
                In (VStr "44f4b399-84ab-548f-b801-52ca177bf266") items.
Proof.
  unfold targeted, query_matches, delete_filter.
  cbn [forallb fst snd]. rewrite andb_true_r.
  change (split_dots "_id" EmptyString) with ["_id"].
  cbn [path_matches].
  destruct (get_field "_id" d) as [w|].
  - rewrite leaf_matches_string. split.
    + intros [->|(items & -> & Hin)]; eauto.
    + intros [[= ->]|(items & [= ->] & Hin)]; eauto.
  - split; [discriminate|]. intros [H|(items & H & _)]; discriminate H.
Qed.

(** X13: [deleteOne] deletes the first document of [crm_customer_profiles]
    (of the database in use) whose [_id] is the one written in it, reports
    one deletion, and leaves the other documents in their order. *)
Theorem deleteOne_removes_first_match (s : session) (pre post : list document) (d : document) :
  collection s "crm_customer_profiles" = (pre ++ d :: post)%list ->
  Forall (fun x => targeted x = false) pre ->
  targeted d = true ->
  fst (Customers.deleteOne s) = 1%nat /\
  collection (snd (Customers.deleteOne s)) "crm_customer_profiles" = (pre ++ post)%list.
Proof.
  intros Hcoll Hpre Hd. rewrite deleteOne_unfold, Hcoll.
  rewrite (remove_first_split delete_filter pre post d Hpre Hd). simpl.
  split; [reflexivity|apply collection_put_same].
Qed.

Lemma deleteOne_removes_first_match_witness :
  fst (Customers.deleteOne two_profiles) = 1%nat /\
  collection (snd (Customers.deleteOne two_profiles)) "crm_customer_profiles"
  = [ [ ("_id", VStr "p0");
        ("orders", VArr [ VDoc [ ("order_id", VNum 6208981112233112576) ] ]) ];
      [ ("_id", VStr "p2"); ("orders", VArr []) ] ].
Proof.
  refine (deleteOne_removes_first_match two_profiles
            [ [ ("_id", VStr "p0");
                ("orders", VArr [ VDoc [ ("order_id", VNum 6208981112233112576) ] ]) ] ]
            [ [ ("_id", VStr "p2"); ("orders", VArr []) ] ]
            _ eq_refl _ eq_refl).
  repeat constructor.
Defined.

(** X14: when no document of the collection has that [_id] (the collection
    may be empty or missing), [deleteOne] reports no deletion and leaves
    the session as it is. *)
Theorem deleteOne_without_match (s : session) :
  Forall (fun x => targeted x = false) (collection s "crm_customer_profiles") ->
  Customers.deleteOne s = (0%nat, s).
Proof.
  intros H. rewrite deleteOne_unfold.
  now rewrite (remove_first_none delete_filter _ H).
Qed.

Lemma deleteOne_without_match_witness :
  length (collection other_profiles_session "crm_customer_profiles") = 2%nat /\
  Customers.deleteOne other_profiles_session = (0%nat, other_profiles_session).
Proof.
  split; [reflexivity|].
  refine (deleteOne_without_match other_profiles_session _).
  change (collection other_profiles_session "crm_customer_profiles")
    with [ [ ("_id", VStr "p0"); ("orders", VArr []) ];
           [ ("_id", VStr "44f4b399"); ("orders", VArr []) ] ].
  repeat (apply List.Forall_cons; [reflexivity|]). apply List.Forall_nil.
Defined.

(** X15: [deleteOne] touches nothing but [crm_customer_profiles] of the
    database in use: every other collection, of this database or of
    another, is as it was, missing ones stay missing, and the database in
    use is the same. *)
Theorem deleteOne_frame (s : session) (db name : string) :
  db <> current_db s \/ name <> "crm_customer_profiles" ->
  data (snd (Customers.deleteOne s)) !! db ≫= (fun colls => colls !! name)
  = data s !! db ≫= (fun colls => colls !! name) /\
  current_db (snd (Customers.deleteOne s)) = current_db s.
Proof.
  intros Hother. rewrite deleteOne_unfold.
  destruct (remove_first delete_filter (collection s "crm_customer_profiles")) as [docs|];
    simpl; [|split; reflexivity].
  split; [|reflexivity].
  exact (lookup_put_other "crm_customer_profiles" name db docs s Hother).
Qed.

Lemma deleteOne_frame_witness :
  data (snd (Customers.deleteOne two_profiles)) !! "report_db" ≫= (fun colls => colls !! "audit")
  = data two_profiles !! "report_db" ≫= (fun colls => colls !! "audit") /\
  current_db (snd (Customers.deleteOne two_profiles)) = current_db two_profiles.
Proof.
  refine (deleteOne_frame two_profiles "report_db" "audit" _).
  right. discriminate.
Defined.

(** X16: [deleteOne] deletes at most one document: the number it reports
    is 0 or 1, and the collection is shorter by that number. *)
Theorem deleteOne_count (s : session) :
  (fst (Customers.deleteOne s) <= 1)%nat /\
  (length (collection (snd (Customers.deleteOne s)) "crm_customer_profiles")
   + fst (Customers.deleteOne s)
   = length (collection s "crm_customer_profiles"))%nat.
Proof.
  rewrite deleteOne_unfold.
  destruct (remove_first delete_filter (collection s "crm_customer_profiles"))
    as [docs|] eqn:E; simpl.
  - split; [apply le_n|]. rewrite collection_put_same.
    destruct (remove_first_inv _ _ _ E) as (pre & d & post & -> & -> & _).
    rewrite !length_app. simpl. rewrite Nat.add_1_r, <- plus_n_Sm. reflexivity.
  - split; [apply Nat.le_0_l|apply Nat.add_0_r].
Qed.

Lemma filter_targeted_none (docs : list document) :
  List.filter targeted docs = [] -> Forall (fun x => targeted x = false) docs.
Proof.
  induction docs as [|x rest IH]; simpl; intros H; [constructor|].
  destruct (targeted x) eqn:Hx; [discriminate|]. constructor; auto.
Qed.

(** X17: where at most one document has that [_id], a second [deleteOne]
    finds nothing to delete: it reports 0 and changes nothing. *)
Theorem deleteOne_twice (s : session) :
  (length (List.filter targeted (collection s "crm_customer_profiles")) <= 1)%nat ->
  Customers.deleteOne (snd (Customers.deleteOne s)) = (0%nat, snd (Customers.deleteOne s)).
Proof.
  intros Hone.
  destruct (remove_first delete_filter (collection s "crm_customer_profiles"))
    as [docs|] eqn:E.
  - assert (Customers.deleteOne s = (1%nat, put_collection "crm_customer_profiles" docs s))
      as -> by (rewrite deleteOne_unfold, E; reflexivity).
    cbn [snd]. rewrite deleteOne_unfold, collection_put_same.
    rewrite remove_first_none; [reflexivity|].
    apply filter_targeted_none.
    destruct (remove_first_inv _ _ _ E) as (pre & d & post & Hdocs & -> & Hpre & Hd).
    rewrite Hdocs in Hone. rewrite List.filter_app in Hone. simpl in Hone.
    change (query_matches delete_filter d) with (targeted d) in Hd. rewrite Hd in Hone.
    rewrite length_app in Hone. simpl in Hone. rewrite List.filter_app.
    destruct (List.filter targeted pre); [|simpl in Hone; lia].
    destruct (List.filter targeted post); [reflexivity|simpl in Hone; lia].
  - assert (Customers.deleteOne s = (0%nat, s)) as ->
        by (rewrite deleteOne_unfold, E; reflexivity).
    cbn [snd]. rewrite deleteOne_unfold, E. reflexivity.
Qed.

Lemma deleteOne_twice_witness :
  Customers.deleteOne (snd (Customers.deleteOne two_profiles))
  = (0%nat, snd (Customers.deleteOne two_profiles)).
Proof.
  refine (deleteOne_twice two_profiles _). vm_compute. apply le_n.
Defined.

Lemma customer_find_result
      (server_sort : list (string * Z) -> list document -> list document) (s : session) :
  fst (Customers.find server_sort s)
  = Ok (List.filter (query_matches Customers.customer_filter)
          (collection s "crm_customer_profiles")).
Proof.
  unfold Customers.find, run, selected. simpl. apply project_all_whole.
Qed.

(** X18: with the call of [deleteOne] put back before [find], the script
    still fails in no case, and returns only profiles the script returns
    without it, and no more of them. *)
Theorem find_after_delete
        (server_sort : list (string * Z) -> list document -> list document) (s : session) :
  exists before after,
    fst (Customers.playground server_sort s) = Ok before /\
    fst (delete_then_find server_sort s) = Ok after /\
    (forall p, In p after -> In p before) /\
    (length after <= length before)%nat.
Proof.
  set (s0 := Session "report_db" (data s)).
  exists (List.filter (query_matches Customers.customer_filter)
            (collection s0 "crm_customer_profiles")),
         (List.filter (query_matches Customers.customer_filter)
            (collection (snd (Customers.deleteOne s0)) "crm_customer_profiles")).
  split; [apply customer_script_result|].
  split.
  { unfold delete_then_find, bind, use. fold s0.
    destruct (Customers.deleteOne s0) as [n s1]. apply customer_find_result. }
  rewrite deleteOne_unfold.
  destruct (remove_first delete_filter (collection s0 "crm_customer_profiles"))
    as [docs|] eqn:E; cbn [snd]; [|split; [auto|apply le_n]].
  rewrite collection_put_same.
  destruct (remove_first_inv _ _ _ E) as (pre & d & post & Hbefore & Hafter & _).
  rewrite Hbefore, Hafter, !List.filter_app. cbn [List.filter]. split.
  - intros p Hin. apply in_app_iff in Hin. apply in_app_iff.
    destruct Hin as [H|H]; [left; exact H|right].
    destruct (query_matches Customers.customer_filter d); [apply in_cons; exact H|exact H].
  - rewrite !length_app.
    destruct (query_matches Customers.customer_filter d); cbn [length]; lia.
Qed.
